(** * Option pricing: Monte Carlo simulation and the Black-Scholes formula

    A shallow embedding of [option_pricing_main.py] (class [OptionPricing])
    and the properties of its pricing engine.

    Numeric model.  The program computes with IEEE binary64 numbers
    ([float], [np.float64]).  Here they are idealised as real numbers:
    [np.exp], [np.log] and [np.sqrt] are the real functions [exp], [ln] and
    [sqrt]; rounding, overflow and underflow are not represented, and a
    quotient by zero, the logarithm or the root of a negative number (inf or
    nan for NumPy scalars, never an exception) have the value the total real
    functions give them.  Missing values do matter to the volatility
    estimate, so the pandas series operations carry them explicitly
    (module [pd]); the nan of a negative step interval matters to the sign
    of the simulated prices, so the path generator is modelled with nan as
    well (module [f64]).  Python's [int] is [Z], [str] is [string]. *)

From Stdlib Require Import String ZArith Reals Lra Lia List.
Import ListNotations.

Open Scope string_scope.
Open Scope list_scope.
Open Scope R_scope.

(* ================================================================== *)
(** * Library functions the program calls *)

(** ** [scipy.stats.norm] *)

Module norm.

(** The integrand of the standard normal distribution without its
    normalising constant. *)
Definition pdf_kernel (t : R) : R := exp (- (t * t) / 2).

Lemma pdf_kernel_continuity : continuity pdf_kernel.
Proof. unfold pdf_kernel. reg. Qed.

Lemma pdf_kernel_integrable (a b : R) : Riemann_integrable pdf_kernel a b.
Proof.
  destruct (Rle_dec a b) as [Hab | Hab].
  - apply continuity_implies_RiemannInt;
      [exact Hab | intros; apply pdf_kernel_continuity].
  - apply RiemannInt_P1, continuity_implies_RiemannInt;
      [lra | intros; apply pdf_kernel_continuity].
Qed.

(** The integral of [pdf_kernel] from [a] to [b]. *)
Definition kernel_integral (a b : R) : R :=
  RiemannInt (pdf_kernel_integrable a b).

(** [norm.cdf]: the standard normal cumulative distribution function,
    [1/2 + 1/sqrt(2 pi) * integral from 0 to x of exp(-t^2/2) dt]
    (the form scipy's [ndtr] evaluates through [erf]). *)
Definition cdf (x : R) : R := 1 / 2 + / sqrt (2 * PI) * kernel_integral 0 x.

End norm.

(** ** [numpy] *)

Module np.

(** The sum of the elements of an array. *)
Definition sum (a : list R) : R := fold_right Rplus 0 a.

(** [np.mean(a)]: the sum divided by the number of elements. (The mean of
    an empty array is nan in NumPy.) *)
Definition mean (a : list R) : R := sum a / INR (length a).

(** [np.maximum(a, 0)], elementwise. *)
Definition maximum_0 (a : list R) : list R := map (fun x => Rmax x 0) a.

End np.

(** ** [pandas] series operations *)

Module pd.

(** An element of a float64 Series: a finite number, an infinity, or the
    missing value nan. *)
Inductive float64 : Type :=
| Fin (x : R)
| Inf
| NaN.

(** [p / prev - 1] in floating point: a zero divisor gives nan for a zero
    dividend and an infinity otherwise. *)
Definition change (p prev : R) : float64 :=
  if Req_dec_T prev 0
  then (if Req_dec_T p 0 then NaN else Inf)
  else Fin (p / prev - 1).

Fixpoint pct_change_from (prev : R) (s : list R) : list float64 :=
  match s with
  | [] => []
  | p :: s' => change p prev :: pct_change_from p s'
  end.

(** [s.pct_change()]: [s / s.shift(1) - 1]; the first element has no
    predecessor and is nan. *)
Definition pct_change (s : list R) : list float64 :=
  match s with
  | [] => []
  | p :: s' => NaN :: pct_change_from p s'
  end.

(** The elements that are not missing ([skipna=True]). *)
Fixpoint dropna (s : list float64) : list float64 :=
  match s with
  | [] => []
  | NaN :: s' => dropna s'
  | x :: s' => x :: dropna s'
  end.

(** The values of a series without missing elements, when all are
    finite. *)
Fixpoint finite_values (s : list float64) : option (list R) :=
  match s with
  | [] => Some []
  | Fin x :: s' =>
      match finite_values s' with
      | Some xs => Some (x :: xs)
      | None => None
      end
  | _ :: s' => None
  end.

(** The variance with [ddof = 1] of finite observations [xs]:
    the squared deviations from the mean, summed and divided by
    [count - 1]. *)
Definition var_ddof1 (xs : list R) : R :=
  let avg := np.sum xs / INR (length xs) in
  np.sum (map (fun x => (avg - x) ^ 2) xs) / INR (length xs - 1).

(** [s.std()]: the sample standard deviation ([ddof = 1]) of the elements
    that are not missing; nan when at most one element is left, and nan
    when an infinity is among them (its deviation from the mean is
    nan). *)
Definition std (s : list float64) : float64 :=
  let values := dropna s in
  if (length values <=? 1)%nat then NaN
  else match finite_values values with
       | Some xs => Fin (sqrt (var_ddof1 xs))
       | None => NaN
       end.

(** A series value times a finite, positive NumPy scalar. *)
Definition scale (x : float64) (c : R) : float64 :=
  match x with
  | Fin v => Fin (v * c)
  | Inf => Inf
  | NaN => NaN
  end.

End pd.

(* ================================================================== *)
(** * Values, exceptions and results *)

(** The values a price variable of the program can hold: a number, or the
    message the program substitutes for an unrecognised option type. *)
Inductive pyval : Type :=
| PyFloat (x : R)
| PyStr (s : string).

(** Exceptions.  The first four are the built-in exceptions the program can
    raise.  The last three are the error names of the specification's
    taxonomy; no statement of the program raises them. *)
Inductive exn : Type :=
| ZeroDivisionError
| IndexError
| TypeError
| AttributeError
| UnsupportedOptionKind
| DegenerateParameters
| InsufficientData.

Inductive result (A : Type) : Type :=
| Ok (a : A)
| Raise (e : exn).

Arguments Ok {A} a.
Arguments Raise {A} e.

(** A line written by [print(f'{label}{x:.2f}')]: the text before the
    number, and the number (kept exact: the rounding to two decimals is not
    represented). *)
Inductive line : Type :=
| Line (label : string) (x : R).

(** The instance attributes of [OptionPricing], as [__init__] sets them.
    [__init__] fixes [steps = 500] and [sims = 100_000]; [capt], [rf],
    [spot] and [sigma] come from the clock and from market data. *)
Record OptionPricing : Type := mkOptionPricing {
  underlying : string;
  expiry : string;
  opt_type : string;
  strike : R;
  steps : Z;
  sims : Z;
  capt : R;
  rf : R;
  spot : R;
  sigma : R
}.

(** The same instance with another option type. *)
Definition set_opt_type (self : OptionPricing) (k : string) : OptionPricing :=
  mkOptionPricing (underlying self) (expiry self) k (strike self)
    (steps self) (sims self) (capt self) (rf self) (spot self) (sigma self).

(* ================================================================== *)
(** * The estimate of spot price and volatility *)

(** [_stock_info], for the series [df] of daily closing prices that
    [yf.Ticker(self.underlying).history('1y').Close] delivers: the volatility
    is the standard deviation of the daily percentage changes times
    [np.sqrt(252)], the spot price is the last close.  [df.iloc[-1]] raises
    [IndexError] on an empty series. *)
Definition _stock_info (df : list R) : result (R * pd.float64) :=
  let sigma := pd.scale (pd.std (pd.pct_change df)) (sqrt 252) in
  match df with
  | [] => Raise IndexError
  | _ :: _ => Ok (last df 0, sigma)
  end.

(* ================================================================== *)
(** * The pricing engine *)

Section Pricing.

(** The state of the random number generator, and [np.random.randn()]: one
    standard normal draw together with the state the generator is left in. *)
Context {rng : Type} (randn : rng -> R * rng).

(** The generator after [n] draws, and the [i]-th draw (counted from 0)
    that a generator in state [g] delivers. *)
Fixpoint advance (n : nat) (g : rng) : rng :=
  match n with
  | O => g
  | S n' => advance n' (snd (randn g))
  end.

Definition nth_draw (g : rng) (i : nat) : R := fst (randn (advance i g)).

(** The loop of [geometric_path]: [n] iterations left, with the list
    [price_path], the variable [s0] and the generator as they stand. *)
Fixpoint geometric_path_loop (rf sigma t : R) (n : nat)
    (price_path : list R) (s0 : R) (g : rng) : list R * rng :=
  match n with
  | O => (price_path, g)
  | S n' =>
      let (z, g') := randn g in
      let s_t := s0 * exp ((rf - 0.5 * sigma ^ 2) * t + sigma * sqrt t * z) in
      geometric_path_loop rf sigma t n' (price_path ++ [s_t]) s_t g'
  end.

(** [geometric_path(rf, s0, sigma, t, t_steps)]; [range(t_steps)] is empty
    for a negative [t_steps]. *)
Definition geometric_path (rf s0 sigma t : R) (t_steps : Z) (g : rng)
    : list R * rng :=
  geometric_path_loop rf sigma t (Z.to_nat t_steps) [s0] s0 g.

(** The loop of [_mc_simulation]: [n] simulations left. *)
Fixpoint _mc_simulation_loop (self : OptionPricing) (interval : R) (n : nat)
    (final_prices : list R) (g : rng) : list R * rng :=
  match n with
  | O => (final_prices, g)
  | S n' =>
      let (prices, g') :=
        geometric_path (rf self) (spot self) (sigma self) interval (steps self) g in
      _mc_simulation_loop self interval n' (final_prices ++ [last prices 0]) g'
  end.

(** [_mc_simulation]: the final price of each of [sims] simulated paths.
    [self.capt / self.steps] divides a [float] by an [int] and raises
    [ZeroDivisionError] when [steps] is 0.  [prices[-1]] is the last element
    of a path, which is never empty. *)
Definition _mc_simulation (self : OptionPricing) (g : rng)
    : result (list R) * rng :=
  if (steps self =? 0)%Z then (Raise ZeroDivisionError, g)
  else
    let interval := capt self / IZR (steps self) in
    let (final_prices, g') :=
      _mc_simulation_loop self interval (Z.to_nat (sims self)) [] g in
    (Ok final_prices, g').

(** [_mc_option_payoffs]: the mean payoff, or the message for an
    unrecognised option type, returned in its place after the simulation
    has run. *)
Definition _mc_option_payoffs (self : OptionPricing) (g : rng)
    : result pyval * rng :=
  match _mc_simulation self g with
  | (Raise e, g') => (Raise e, g')
  | (Ok final_prices, g') =>
      if (opt_type self =? "Call")%string then
        let payoffs := np.maximum_0 (map (fun s => s - strike self) final_prices) in
        (Ok (PyFloat (np.mean payoffs)), g')
      else if (opt_type self =? "Put")%string then
        let payoffs := np.maximum_0 (map (fun s => strike self - s) final_prices) in
        (Ok (PyFloat (np.mean payoffs)), g')
      else (Ok (PyStr "Unrecognized option. Input 'Call' or 'Put'"), g')
  end.

(** [mc_call_prc]: the discounted mean payoff, printed.  A [str] times an
    [np.float64] raises [TypeError]. *)
Definition mc_call_prc (self : OptionPricing) (g : rng) : result line * rng :=
  match _mc_option_payoffs self g with
  | (Raise e, g') => (Raise e, g')
  | (Ok (PyFloat avg_payoff), g') =>
      let price := avg_payoff * exp ((rf self * -1) * capt self) in
      (Ok (Line "Monte Carlo Simulation: " price), g')
  | (Ok (PyStr _), g') => (Raise TypeError, g')
  end.

End Pricing.

(** The variable [price] of [black_sholes_price] before it is printed. *)
Definition black_sholes_value (self : OptionPricing) : pyval :=
  let d1 := (ln (spot self / strike self) +
             (rf self + sigma self ^ 2 / 2) * capt self)
            / (sigma self * sqrt (capt self)) in
  let d2 := d1 - sigma self * sqrt (capt self) in
  if (opt_type self =? "Call")%string then
    PyFloat (spot self * norm.cdf d1
             - strike self * exp ((-1 * rf self) * capt self) * norm.cdf d2)
  else if (opt_type self =? "Put")%string then
    PyFloat (strike self * exp ((-1 * rf self) * capt self) * norm.cdf (- d2)
             - spot self * norm.cdf (- d1))
  else PyStr "Option type not recognized. Please use 'Call' or 'Put'.".

(** [black_sholes_price]: the Black-Scholes price, printed.  A [str] has no
    attribute [item], so [price.item()] raises [AttributeError] for the
    message. *)
Definition black_sholes_price (self : OptionPricing) : result line :=
  match black_sholes_value self with
  | PyFloat price => Ok (Line "Black and Sholes Model: " price)
  | PyStr _ => Raise AttributeError
  end.

(* ================================================================== *)
(** * The computations as the specification words them

    These definitions follow the text of the specification, not the
    program; the theorems below compare the two. *)

Module Spec.

(** optionKind: enum {Call, Put}. *)
Inductive OptionKind : Type :=
| Call
| Put.

(** The string by which the program names an option kind. *)
Definition kind_name (k : OptionKind) : string :=
  match k with
  | Call => "Call"
  | Put => "Put"
  end.

(** d1 = (ln(spot/strike) + (riskFreeRate + volatility^2/2) * T)
         / (volatility * sqrt(T)) *)
Definition d1 (spot strike riskFreeRate volatility T : R) : R :=
  (ln (spot / strike) + (riskFreeRate + volatility ^ 2 / 2) * T)
  / (volatility * sqrt T).

(** d2 = d1 - volatility * sqrt(T) *)
Definition d2 (spot strike riskFreeRate volatility T : R) : R :=
  d1 spot strike riskFreeRate volatility T - volatility * sqrt T.

(** Call: spot * Phi(d1) - strike * exp(-riskFreeRate*T) * Phi(d2);
    Put: strike * exp(-riskFreeRate*T) * Phi(-d2) - spot * Phi(-d1). *)
Definition analytic_price (k : OptionKind)
    (spot strike riskFreeRate volatility T : R) : R :=
  let d1 := d1 spot strike riskFreeRate volatility T in
  let d2 := d2 spot strike riskFreeRate volatility T in
  match k with
  | Call => spot * norm.cdf d1 - strike * exp (- riskFreeRate * T) * norm.cdf d2
  | Put => strike * exp (- riskFreeRate * T) * norm.cdf (- d2) - spot * norm.cdf (- d1)
  end.

(** Element [i] of a PricePath: element 0 is the initial price, and
    S_next = S * exp((riskFreeRate - 0.5 * volatility^2) * stepIntervalYears
                     + volatility * sqrt(stepIntervalYears) * Z)
    with [Z i] the draw of step [i], for steps 1 to stepCount. *)
Fixpoint path_elem (riskFreeRate volatility stepIntervalYears initialPrice : R)
    (Z : nat -> R) (i : nat) : R :=
  match i with
  | O => initialPrice
  | S j =>
      path_elem riskFreeRate volatility stepIntervalYears initialPrice Z j
      * exp ((riskFreeRate - 0.5 * volatility ^ 2) * stepIntervalYears
             + volatility * sqrt stepIntervalYears * Z (S j))
  end.

(** generatePath: the sequence of the elements 0 to stepCount. *)
Definition generatePath (riskFreeRate volatility stepIntervalYears initialPrice : R)
    (stepCount : nat) (Z : nat -> R) : list R :=
  map (path_elem riskFreeRate volatility stepIntervalYears initialPrice Z)
      (seq 0 (stepCount + 1)).

(** max(S_T - strikePrice, 0) for Call, max(strikePrice - S_T, 0) for Put. *)
Definition payoff (k : OptionKind) (strikePrice S_T : R) : R :=
  match k with
  | Call => Rmax (S_T - strikePrice) 0
  | Put => Rmax (strikePrice - S_T) 0
  end.

(** The Monte Carlo price for the draws [draw 0], [draw 1], ... of the
    random source: trial [j] (counted from 0) takes the next stepCount
    draws, so that its step [i] uses [draw (j * stepCount + (i - 1))]. *)
Definition monte_carlo_price (k : OptionKind)
    (spotPrice strikePrice riskFreeRate volatility timeToMaturityYears : R)
    (stepCount trialCount : nat) (draw : nat -> R) : R :=
  let stepIntervalYears := timeToMaturityYears / INR stepCount in
  let S_T (j : nat) :=
    last (generatePath riskFreeRate volatility stepIntervalYears spotPrice
            stepCount (fun i => draw (j * stepCount + (i - 1))%nat)) 0 in
  let payoffs := map (fun j => payoff k strikePrice (S_T j)) (seq 0 trialCount) in
  let average_payoff := fold_right Rplus 0 payoffs / INR trialCount in
  average_payoff * exp (- riskFreeRate * timeToMaturityYears).

(** The day-over-day simple returns (p[i] - p[i-1]) / p[i-1]. *)
Definition simple_returns (p : list R) : list R :=
  map (fun i => (nth i p 0 - nth (i - 1) p 0) / nth (i - 1) p 0)
      (seq 1 (length p - 1)).

(** The sample standard deviation of [n] observations: the square root of
    the sum of the squared deviations from their mean over [n - 1]. *)
Definition sample_std (xs : list R) : R :=
  let n := INR (length xs) in
  let mean := fold_right Rplus 0 xs / n in
  sqrt (fold_right Rplus 0 (map (fun x => (x - mean) ^ 2) xs) / (n - 1)).

(** estimateVolatility: the sample standard deviation of the simple
    returns, annualised by sqrt(tradingDaysPerYear). *)
Definition estimateVolatility (priceSeries : list R) (tradingDaysPerYear : Z) : R :=
  sample_std (simple_returns priceSeries) * sqrt (IZR tradingDaysPerYear).

End Spec.

(* ================================================================== *)
(** * The standard normal distribution function *)

Module NormFacts.
Import norm.

Lemma pdf_kernel_even (t : R) : pdf_kernel (- t) = pdf_kernel t.
Proof. unfold pdf_kernel. f_equal. lra. Qed.

Lemma kernel_integral_chasles (a b c : R) :
  kernel_integral a b + kernel_integral b c = kernel_integral a c.
Proof. apply RiemannInt_P26. Qed.

Lemma kernel_integral_swap (a b : R) :
  kernel_integral a b = - kernel_integral b a.
Proof. apply RiemannInt_P8. Qed.

Lemma kernel_integral_point (a : R) : kernel_integral a a = 0.
Proof. pose proof (kernel_integral_swap a a). lra. Qed.

(** On [[a, b]] the library's primitive of the kernel from [a] is the
    integral from [a]. *)
Lemma primitive_kernel_integral (a b : R) (h : a <= b)
    (pr : forall x : R, a <= x -> x <= b -> Riemann_integrable pdf_kernel a x)
    (t : R) :
  a <= t <= b -> primitive h pr t = kernel_integral a t.
Proof.
  intros [Hat Htb]. unfold primitive.
  destruct (Rle_dec a t) as [r | n]; [| contradiction].
  destruct (Rle_dec t b) as [r0 | n0]; [| contradiction].
  apply RiemannInt_P5.
Qed.

(** The integral from 0 is an odd function of its upper end: on [[-x, x]]
    both [F] and [t |-> - F (- t)] are antiderivatives of the even kernel,
    so they differ by a constant. *)
Lemma kernel_integral_odd_nonneg (x : R) :
  0 <= x -> kernel_integral 0 (- x) = - kernel_integral 0 x.
Proof.
  intros Hx.
  assert (h : - x <= x) by lra.
  assert (C0 : forall t : R, - x <= t <= x -> continuity_pt pdf_kernel t)
    by (intros; apply pdf_kernel_continuity).
  set (F := primitive h (FTC_P1 h C0)).
  assert (HF : antiderivative pdf_kernel F (- x) x) by apply RiemannInt_P29.
  assert (HG : antiderivative pdf_kernel (- (comp F (- id)))%F (- x) x).
  { split; [| exact h]. intros t Ht.
    assert (D : derivable_pt_lim (- (comp F (- id)))%F t
                  (- (pdf_kernel (- t) * - 1))).
    { apply derivable_pt_lim_opp.
      apply (derivable_pt_lim_comp (- id)%F F).
      - apply derivable_pt_lim_opp, derivable_pt_lim_id.
      - unfold opp_fct, id. apply RiemannInt_P28. lra. }
    exists (exist _ _ D). simpl. rewrite pdf_kernel_even. lra. }
  destruct (antiderivative_Ucte _ _ _ _ _ HF HG) as [c Hc].
  assert (H0 := Hc 0 ltac:(lra)).
  assert (H1 := Hc x ltac:(lra)).
  unfold opp_fct, comp, id in H0, H1.
  rewrite Ropp_0 in H0.
  unfold F in H0, H1.
  rewrite (primitive_kernel_integral _ _ _ _ 0) in H0 by lra.
  rewrite (primitive_kernel_integral _ _ _ _ x) in H1 by lra.
  rewrite (primitive_kernel_integral _ _ _ _ (- x)) in H1 by lra.
  rewrite kernel_integral_point in H1.
  pose proof (kernel_integral_chasles (- x) 0 x).
  pose proof (kernel_integral_swap (- x) 0).
  lra.
Qed.

Lemma kernel_integral_odd (x : R) :
  kernel_integral 0 (- x) = - kernel_integral 0 x.
Proof.
  destruct (Rle_dec 0 x) as [Hx | Hx].
  - now apply kernel_integral_odd_nonneg.
  - pose proof (kernel_integral_odd_nonneg (- x) ltac:(lra)) as H.
    rewrite Ropp_involutive in H. lra.
Qed.

(** Phi(-x) = 1 - Phi(x). *)
Lemma cdf_opp (x : R) : cdf (- x) = 1 - cdf x.
Proof. unfold cdf. rewrite kernel_integral_odd. lra. Qed.

Lemma cdf_0 : cdf 0 = 1 / 2.
Proof. unfold cdf. rewrite kernel_integral_point. lra. Qed.

End NormFacts.

(* ================================================================== *)
(** * Instances used as concrete inputs *)

(** The scenario of the specification: spot 100, strike 100, rate 0.05,
    volatility 0.2, one year to maturity, with the constructor's
    [steps] and [sims]. *)
Definition at_the_money (k : string) : OptionPricing :=
  mkOptionPricing "GOOGL" "2024-03-15" k 100 500 100000 1 0.05 100 0.2.

(** The same market with two simulations of two steps each. *)
Definition small_run (k : string) : OptionPricing :=
  mkOptionPricing "GOOGL" "2024-03-15" k 100 2 2 1 0.05 100 0.2.


(** A generator that counts its draws and always delivers 0. *)
Definition zero_randn (g : nat) : R * nat := (0, S g).

(* ================================================================== *)
(** * The analytic pricer *)

Lemma opt_type_eqb_kind (self : OptionPricing) (k : Spec.OptionKind) :
  opt_type self = Spec.kind_name k ->
  (opt_type self =? "Call")%string = (match k with Spec.Call => true | Spec.Put => false end)
  /\ (opt_type self =? "Put")%string = (match k with Spec.Call => false | Spec.Put => true end).
Proof. intros ->. destruct k; split; reflexivity. Qed.

Lemma opt_type_eqb_other (self : OptionPricing) :
  opt_type self <> "Call" -> opt_type self <> "Put" ->
  (opt_type self =? "Call")%string = false /\ (opt_type self =? "Put")%string = false.
Proof. intros H1 H2. split; apply String.eqb_neq; assumption. Qed.

(** For a recognised option type the variable [price] holds the number the
    closed formula of the specification gives. *)
Lemma black_sholes_value_kind (self : OptionPricing) (k : Spec.OptionKind) :
  opt_type self = Spec.kind_name k ->
  black_sholes_value self =
  PyFloat (Spec.analytic_price k (spot self) (strike self) (rf self)
             (sigma self) (capt self)).
Proof.
  intros Hk. destruct (opt_type_eqb_kind self k Hk) as [Hc Hp].
  unfold black_sholes_value. rewrite Hc, Hp.
  unfold Spec.analytic_price, Spec.d2, Spec.d1.
  replace (-1 * rf self * capt self) with (- rf self * capt self) by ring.
  destruct k; reflexivity.
Qed.

Lemma black_sholes_value_other (self : OptionPricing) :
  opt_type self <> "Call" -> opt_type self <> "Put" ->
  black_sholes_value self =
  PyStr "Option type not recognized. Please use 'Call' or 'Put'.".
Proof.
  intros H1 H2. destruct (opt_type_eqb_other self H1 H2) as [Hc Hp].
  unfold black_sholes_value. rewrite Hc, Hp. reflexivity.
Qed.

(** Whatever the parameters, [black_sholes_price] prints a number or raises
    [AttributeError]. *)
Lemma black_sholes_price_cases (self : OptionPricing) :
  (exists x, black_sholes_price self = Ok (Line "Black and Sholes Model: " x))
  \/ black_sholes_price self = Raise AttributeError.
Proof.
  unfold black_sholes_price.
  destruct (black_sholes_value self) as [x | s]; [left; exists x | right]; reflexivity.
Qed.

(** C1. With option type Call the analytic pricer reports
    spot * Phi(d1) - strike * exp(-riskFreeRate*T) * Phi(d2), with Put
    strike * exp(-riskFreeRate*T) * Phi(-d2) - spot * Phi(-d1), for d1 and d2
    as the specification defines them and Phi the standard normal
    distribution function. *)
Theorem black_sholes_price_formula (self : OptionPricing) (k : Spec.OptionKind) :
  opt_type self = Spec.kind_name k ->
  black_sholes_price self =
  Ok (Line "Black and Sholes Model: "
        (Spec.analytic_price k (spot self) (strike self) (rf self)
           (sigma self) (capt self))).
Proof.
  intros Hk. unfold black_sholes_price.
  rewrite (black_sholes_value_kind self k Hk). reflexivity.
Qed.

Lemma black_sholes_price_formula_witness :
  black_sholes_price (at_the_money "Call") =
  Ok (Line "Black and Sholes Model: "
        (Spec.analytic_price Spec.Call 100 100 0.05 0.2 1))
  /\ black_sholes_price (at_the_money "Put") =
     Ok (Line "Black and Sholes Model: "
           (Spec.analytic_price Spec.Put 100 100 0.05 0.2 1)).
Proof.
  split.
  - apply (black_sholes_price_formula (at_the_money "Call") Spec.Call). reflexivity.
  - apply (black_sholes_price_formula (at_the_money "Put") Spec.Put). reflexivity.
Defined.

(** C6. For volatility > 0 and time to maturity > 0, the analytic Call
    price minus the analytic Put price of instances that differ in the
    option type only is spot - strike * exp(-riskFreeRate * T). *)
Theorem put_call_parity (self : OptionPricing) :
  0 < sigma self -> 0 < capt self ->
  exists c p : R,
    black_sholes_price (set_opt_type self "Call")
    = Ok (Line "Black and Sholes Model: " c)
    /\ black_sholes_price (set_opt_type self "Put")
       = Ok (Line "Black and Sholes Model: " p)
    /\ c - p = spot self - strike self * exp (- rf self * capt self).
Proof.
  intros _ _.
  eexists. eexists. split; [| split].
  - unfold black_sholes_price.
    rewrite (black_sholes_value_kind (set_opt_type self "Call") Spec.Call eq_refl).
    reflexivity.
  - unfold black_sholes_price.
    rewrite (black_sholes_value_kind (set_opt_type self "Put") Spec.Put eq_refl).
    reflexivity.
  - simpl. unfold Spec.analytic_price.
    rewrite !NormFacts.cdf_opp. ring.
Qed.

Lemma put_call_parity_witness :
  exists c p : R,
    black_sholes_price (at_the_money "Call")
    = Ok (Line "Black and Sholes Model: " c)
    /\ black_sholes_price (at_the_money "Put")
       = Ok (Line "Black and Sholes Model: " p)
    /\ c - p = spot (at_the_money "Call")
               - strike (at_the_money "Call")
                 * exp (- rf (at_the_money "Call") * capt (at_the_money "Call")).
Proof.
  exact (put_call_parity (at_the_money "Call")
           ltac:(simpl; lra) ltac:(simpl; lra)).
Defined.




(* ================================================================== *)
(** * The path generator *)

Section PathGenerator.

Context {rng : Type} (randn : rng -> R * rng).

Local Abbreviation adv := (advance randn).
Local Abbreviation draw := (nth_draw randn).

(** The draw of step [i] (steps are counted from 1) of a path whose
    generation starts with the generator in state [g]. *)
Definition step_draw (g : rng) (i : nat) : R := draw g (i - 1).

Lemma advance_add (a b : nat) (g : rng) :
  adv (a + b) g = adv b (adv a g).
Proof.
  revert g. induction a as [| a IH]; intros g; simpl; [reflexivity | apply IH].
Qed.

Lemma nth_draw_advance (a i : nat) (g : rng) :
  draw (adv a g) i = draw g (a + i).
Proof. unfold nth_draw. now rewrite advance_add. Qed.

Lemma step_draw_next (g : rng) (i : nat) :
  (1 <= i)%nat -> step_draw (snd (randn g)) i = step_draw g (S i).
Proof.
  intros Hi. unfold step_draw, nth_draw.
  replace (S i - 1)%nat with (S (i - 1)) by lia. reflexivity.
Qed.

Section Path.

Variables rf sigma t : R.

Local Abbreviation growth z := (exp ((rf - 0.5 * sigma ^ 2) * t + sigma * sqrt t * z)).
Local Abbreviation path_elem := (Spec.path_elem rf sigma t).

(** An element depends on the draws of the steps up to it only. *)
Lemma path_elem_ext (s0 : R) (Z Z' : nat -> R) (i : nat) :
  (forall j, (1 <= j <= i)%nat -> Z j = Z' j) ->
  path_elem s0 Z i = path_elem s0 Z' i.
Proof.
  induction i as [| i IH]; intros H; simpl; [reflexivity |].
  rewrite IH by (intros j Hj; apply H; lia).
  rewrite (H (S i)) by lia. reflexivity.
Qed.

(** Taking the first step moves the start of the path. *)
Lemma path_elem_shift (s0 : R) (Z : nat -> R) (i : nat) :
  path_elem s0 Z (S i) = path_elem (s0 * growth (Z 1%nat)) (fun j => Z (S j)) i.
Proof.
  induction i as [| i IH]; [reflexivity |].
  change (path_elem s0 Z (S (S i)))
    with (path_elem s0 Z (S i) * growth (Z (S (S i)))).
  rewrite IH. reflexivity.
Qed.


(** What the loop appends to the list, and where it leaves the
    generator. *)
Lemma geometric_path_loop_elems (n : nat) (price_path : list R) (s0 : R) (g : rng) :
  geometric_path_loop randn rf sigma t n price_path s0 g =
  (price_path ++ map (path_elem s0 (step_draw g)) (seq 1 n), adv n g).
Proof.
  revert price_path s0 g.
  induction n as [| n IH]; intros price_path s0 g.
  - simpl. now rewrite app_nil_r.
  - cbn [geometric_path_loop advance].
    destruct (randn g) as [z g'] eqn:Hg.
    rewrite IH. cbn [snd]. f_equal.
    rewrite <- app_assoc. f_equal.
    cbn [seq map app]. f_equal.
    + unfold step_draw, nth_draw. simpl. now rewrite Hg.
    + rewrite <- (seq_shift n 1), map_map.
      apply map_ext_in. intros i Hi. apply in_seq in Hi.
      rewrite path_elem_shift.
      replace (step_draw g 1) with z
        by (unfold step_draw, nth_draw; simpl; now rewrite Hg).
      apply path_elem_ext. intros j Hj.
      rewrite <- step_draw_next by lia. now rewrite Hg.
Qed.

(** The path of the program is the path of the specification for the
    draws the generator delivers, and the generator has advanced by one
    draw for each step. *)
Lemma geometric_path_generatePath (s0 : R) (t_steps : Z) (g : rng) :
  geometric_path randn rf s0 sigma t t_steps g =
  (Spec.generatePath rf sigma t s0 (Z.to_nat t_steps) (step_draw g),
   adv (Z.to_nat t_steps) g).
Proof.
  unfold geometric_path. rewrite geometric_path_loop_elems.
  unfold Spec.generatePath.
  replace (Z.to_nat t_steps + 1)%nat with (S (Z.to_nat t_steps)) by lia.
  reflexivity.
Qed.

Lemma generatePath_length (s0 : R) (n : nat) (Z : nat -> R) :
  length (Spec.generatePath rf sigma t s0 n Z) = (n + 1)%nat.
Proof. unfold Spec.generatePath. now rewrite length_map, length_seq. Qed.

Lemma generatePath_nth (s0 : R) (n : nat) (Z : nat -> R) (i : nat) :
  (i <= n)%nat ->
  nth i (Spec.generatePath rf sigma t s0 n Z) 0 = path_elem s0 Z i.
Proof.
  intros Hi. unfold Spec.generatePath.
  rewrite (nth_indep _ 0 (path_elem s0 Z 0%nat))
    by (rewrite length_map, length_seq; lia).
  rewrite map_nth, seq_nth by lia. reflexivity.
Qed.

Lemma generatePath_last (s0 : R) (n : nat) (Z : nat -> R) :
  last (Spec.generatePath rf sigma t s0 n Z) 0 = path_elem s0 Z n.
Proof.
  unfold Spec.generatePath.
  replace (n + 1)%nat with (S n) by lia.
  rewrite seq_S, map_app. simpl. apply last_last.
Qed.

End Path.
End PathGenerator.

Section PathClaims.

Context {rng : Type} (randn : rng -> R * rng).

(** C3. For stepCount >= 0 the path generator returns a sequence of length
    stepCount + 1 whose element 0 is the initial price and whose element i,
    1 <= i <= stepCount, is element i-1 times
    exp((riskFreeRate - 0.5*volatility^2) * stepIntervalYears
        + volatility * sqrt(stepIntervalYears) * Z_i),
    Z_i being the i-th draw of the generator. *)
Theorem geometric_path_elements (rf s0 sigma t : R) (t_steps : Z) (g : rng) :
  (0 <= t_steps)%Z ->
  let price_path := fst (geometric_path randn rf s0 sigma t t_steps g) in
  Z.of_nat (length price_path) = (t_steps + 1)%Z
  /\ nth 0 price_path 0 = s0
  /\ forall i : nat,
       (1 <= i)%nat -> (Z.of_nat i <= t_steps)%Z ->
       nth i price_path 0 =
       nth (i - 1) price_path 0
       * exp ((rf - 0.5 * sigma ^ 2) * t
              + sigma * sqrt t * nth_draw randn g (i - 1)).
Proof.
  intros Hn price_path. subst price_path.
  rewrite geometric_path_generatePath. cbn [fst].
  split; [| split].
  - rewrite generatePath_length. lia.
  - rewrite generatePath_nth by lia. reflexivity.
  - intros i Hi Hle.
    rewrite !generatePath_nth by lia.
    destruct i as [| j]; [lia |].
    cbn [Spec.path_elem]. unfold step_draw at 2.
    replace (S j - 1)%nat with j by lia. reflexivity.
Qed.

End PathClaims.

Lemma geometric_path_elements_witness :
  let price_path := fst (geometric_path zero_randn 0.05 100 0.2 (1 / 2) 2 0%nat) in
  Z.of_nat (length price_path) = (2 + 1)%Z
  /\ nth 0 price_path 0 = 100
  /\ forall i : nat,
       (1 <= i)%nat -> (Z.of_nat i <= 2)%Z ->
       nth i price_path 0 =
       nth (i - 1) price_path 0
       * exp ((0.05 - 0.5 * 0.2 ^ 2) * (1 / 2)
              + 0.2 * sqrt (1 / 2) * nth_draw zero_randn 0%nat (i - 1)).
Proof.
  apply (geometric_path_elements zero_randn 0.05 100 0.2 (1 / 2) 2 0%nat). lia.
Defined.

(* ================================================================== *)
(** * The path generator with nan

    [np.sqrt] of a negative number is nan, and a nan operand makes the
    result of every arithmetic operation and of [np.exp] nan.  The
    definitions above give the root of a negative step interval the value
    of the total real function; the definitions here follow the program
    there too.  Rounding, overflow and underflow stay out of the model. *)

Module f64.

(** A float as far as this model follows it: a number, or nan. *)
Inductive float : Type :=
| Num (x : R)
| Nan.

Definition add (a b : float) : float :=
  match a, b with
  | Num x, Num y => Num (x + y)
  | _, _ => Nan
  end.

Definition mul (a b : float) : float :=
  match a, b with
  | Num x, Num y => Num (x * y)
  | _, _ => Nan
  end.

(** [np.exp] *)
Definition exp (a : float) : float :=
  match a with
  | Num x => Num (Rtrigo_def.exp x)
  | Nan => Nan
  end.

(** [np.sqrt] of a number *)
Definition sqrt (x : R) : float :=
  if Rlt_dec x 0 then Nan else Num (R_sqrt.sqrt x).



End f64.

Section PathWithNan.

Context {rng : Type} (randn : rng -> R * rng).

(** The loop of [geometric_path], the prices being numbers or nan. *)
Fixpoint geometric_path_f64_loop (rf sigma t : R) (n : nat)
    (price_path : list f64.float) (s0 : f64.float) (g : rng)
    : list f64.float * rng :=
  match n with
  | O => (price_path, g)
  | S n' =>
      let (z, g') := randn g in
      let s_t :=
        f64.mul s0
          (f64.exp
             (f64.add (f64.Num ((rf - 0.5 * sigma ^ 2) * t))
                (f64.mul (f64.mul (f64.Num sigma) (f64.sqrt t)) (f64.Num z)))) in
      geometric_path_f64_loop rf sigma t n' (price_path ++ [s_t]) s_t g'
  end.

(** [geometric_path(rf, s0, sigma, t, t_steps)] for numbers [rf], [s0],
    [sigma] and [t]. *)
Definition geometric_path_f64 (rf s0 sigma t : R) (t_steps : Z) (g : rng)
    : list f64.float * rng :=
  geometric_path_f64_loop rf sigma t (Z.to_nat t_steps) [f64.Num s0] (f64.Num s0) g.

(** For a step interval that is not negative the loop computes the numbers
    of the loop without nan. *)
Lemma geometric_path_f64_loop_numbers (rf sigma t : R) (n : nat)
    (price_path : list R) (s0 : R) (g : rng) :
  0 <= t ->
  geometric_path_f64_loop rf sigma t n (map f64.Num price_path) (f64.Num s0) g =
  (map f64.Num (fst (geometric_path_loop randn rf sigma t n price_path s0 g)),
   snd (geometric_path_loop randn rf sigma t n price_path s0 g)).
Proof.
  intros Ht. revert price_path s0 g.
  induction n as [| n IH]; intros price_path s0 g; [reflexivity |].
  cbn [geometric_path_f64_loop geometric_path_loop].
  destruct (randn g) as [z g'].
  unfold f64.sqrt. destruct (Rlt_dec t 0) as [Hlt | _]; [lra |].
  cbn [f64.mul f64.add f64.exp].
  rewrite <- IH. now rewrite map_app.
Qed.


Lemma geometric_path_f64_numbers (rf s0 sigma t : R) (t_steps : Z) (g : rng) :
  0 <= t ->
  geometric_path_f64 rf s0 sigma t t_steps g =
  (map f64.Num (fst (geometric_path randn rf s0 sigma t t_steps g)),
   snd (geometric_path randn rf s0 sigma t t_steps g)).
Proof.
  intros Ht. unfold geometric_path_f64, geometric_path.
  now rewrite <- geometric_path_f64_loop_numbers.
Qed.



End PathWithNan.



(* ================================================================== *)
(** * The Monte Carlo pricer *)

Section MonteCarlo.

Context {rng : Type} (randn : rng -> R * rng).

Local Abbreviation adv := (advance randn).
Local Abbreviation draw := (nth_draw randn).

(** The final price of simulation [j] (counted from 0) when the first
    simulation starts with the generator in state [g]: simulation [j] takes
    the draws [j * steps], ..., [j * steps + steps - 1]. *)
Definition final_price (self : OptionPricing) (g : rng) (j : nat) : R :=
  Spec.path_elem (rf self) (sigma self) (capt self / IZR (steps self)) (spot self)
    (fun i => draw g (j * Z.to_nat (steps self) + (i - 1))%nat)
    (Z.to_nat (steps self)).

Lemma final_price_next (self : OptionPricing) (g : rng) (j : nat) :
  final_price self (adv (Z.to_nat (steps self)) g) j = final_price self g (S j).
Proof.
  unfold final_price. apply path_elem_ext. intros i Hi.
  rewrite nth_draw_advance. f_equal. lia.
Qed.

Lemma _mc_simulation_loop_final_prices (self : OptionPricing) (n : nat)
    (final_prices : list R) (g : rng) :
  _mc_simulation_loop randn self (capt self / IZR (steps self)) n final_prices g =
  (final_prices ++ map (final_price self g) (seq 0 n),
   adv (n * Z.to_nat (steps self)) g).
Proof.
  revert final_prices g.
  induction n as [| n IH]; intros final_prices g.
  - simpl. now rewrite app_nil_r.
  - cbn [_mc_simulation_loop].
    rewrite geometric_path_generatePath, generatePath_last, IH.
    f_equal.
    + rewrite <- app_assoc. f_equal. cbn [seq map app]. f_equal.
      rewrite <- (seq_shift n 0), map_map.
      apply map_ext. intros j. apply final_price_next.
    + rewrite <- advance_add. reflexivity.
Qed.

Lemma _mc_simulation_zero_steps (self : OptionPricing) (g : rng) :
  steps self = 0%Z ->
  _mc_simulation randn self g = (Raise ZeroDivisionError, g).
Proof. intros H. unfold _mc_simulation. now rewrite H. Qed.

Lemma _mc_simulation_final_prices (self : OptionPricing) (g : rng) :
  steps self <> 0%Z ->
  _mc_simulation randn self g =
  (Ok (map (final_price self g) (seq 0 (Z.to_nat (sims self)))),
   adv (Z.to_nat (sims self) * Z.to_nat (steps self)) g).
Proof.
  intros H. unfold _mc_simulation.
  apply Z.eqb_neq in H. rewrite H.
  rewrite _mc_simulation_loop_final_prices. reflexivity.
Qed.

(** The final prices depend on the draws the simulations consume only. *)
Lemma final_price_draws (self : OptionPricing) (g1 g2 : rng) (j : nat) :
  (forall i, (i < S j * Z.to_nat (steps self))%nat -> draw g1 i = draw g2 i) ->
  final_price self g1 j = final_price self g2 j.
Proof.
  intros H. unfold final_price. apply path_elem_ext. intros i Hi.
  apply H. simpl. lia.
Qed.

Lemma _mc_simulation_draws (self : OptionPricing) (g1 g2 : rng) :
  (forall i, (i < Z.to_nat (sims self) * Z.to_nat (steps self))%nat ->
             draw g1 i = draw g2 i) ->
  fst (_mc_simulation randn self g1) = fst (_mc_simulation randn self g2).
Proof.
  intros H. destruct (Z.eq_dec (steps self) 0) as [H0 | H0].
  - now rewrite !_mc_simulation_zero_steps.
  - rewrite !_mc_simulation_final_prices by assumption. cbn [fst]. f_equal.
    apply map_ext_in. intros j Hj. apply in_seq in Hj.
    apply final_price_draws. intros i Hi. apply H. nia.
Qed.

(** The result of [_mc_option_payoffs] and of [mc_call_prc] as functions of
    the result of the simulation. *)
Definition payoffs_of (self : OptionPricing) (r : result (list R)) : result pyval :=
  match r with
  | Raise e => Raise e
  | Ok final_prices =>
      if (opt_type self =? "Call")%string then
        Ok (PyFloat (np.mean (np.maximum_0 (map (fun s => s - strike self) final_prices))))
      else if (opt_type self =? "Put")%string then
        Ok (PyFloat (np.mean (np.maximum_0 (map (fun s => strike self - s) final_prices))))
      else Ok (PyStr "Unrecognized option. Input 'Call' or 'Put'")
  end.

Definition report_of (self : OptionPricing) (r : result pyval) : result line :=
  match r with
  | Raise e => Raise e
  | Ok (PyFloat avg_payoff) =>
      Ok (Line "Monte Carlo Simulation: "
            (avg_payoff * exp ((rf self * -1) * capt self)))
  | Ok (PyStr _) => Raise TypeError
  end.

Lemma _mc_option_payoffs_of (self : OptionPricing) (g : rng) :
  _mc_option_payoffs randn self g =
  (payoffs_of self (fst (_mc_simulation randn self g)),
   snd (_mc_simulation randn self g)).
Proof.
  unfold _mc_option_payoffs, payoffs_of.
  destruct (_mc_simulation randn self g) as [[final_prices | e] g']; cbn [fst snd];
    [| reflexivity].
  destruct (opt_type self =? "Call")%string; [reflexivity |].
  destruct (opt_type self =? "Put")%string; reflexivity.
Qed.

Lemma mc_call_prc_of (self : OptionPricing) (g : rng) :
  mc_call_prc randn self g =
  (report_of self (payoffs_of self (fst (_mc_simulation randn self g))),
   snd (_mc_simulation randn self g)).
Proof.
  unfold mc_call_prc. rewrite _mc_option_payoffs_of. unfold report_of.
  destruct (payoffs_of self (fst (_mc_simulation randn self g))) as [[x | s] | e];
    reflexivity.
Qed.

End MonteCarlo.

Section MonteCarloClaims.

Context {rng : Type} (randn : rng -> R * rng).

Lemma IZR_to_nat (z : Z) : (0 <= z)%Z -> INR (Z.to_nat z) = IZR z.
Proof. intros Hz. now rewrite INR_IZR_INZ, Z2Nat.id. Qed.

(** The final price of a simulation is the last element of the path the
    specification describes for the draws of that simulation. *)
Lemma final_price_last (self : OptionPricing) (g : rng) (j : nat) :
  (0 <= steps self)%Z ->
  final_price randn self g j =
  last (Spec.generatePath (rf self) (sigma self)
          (capt self / INR (Z.to_nat (steps self))) (spot self)
          (Z.to_nat (steps self))
          (fun i => nth_draw randn g (j * Z.to_nat (steps self) + (i - 1))%nat)) 0.
Proof.
  intros Hs. rewrite generatePath_last, IZR_to_nat by assumption. reflexivity.
Qed.

(** C2. For trialCount > 0 and stepCount > 0 and all draws, the Monte Carlo
    pricer reports the value of the computation of the specification: with
    stepIntervalYears = timeToMaturityYears / stepCount, the last element
    S_T of each of trialCount paths, the payoffs max(S_T - strikePrice, 0)
    for Call or max(strikePrice - S_T, 0) for Put, their average, times
    exp(-riskFreeRate * timeToMaturityYears). *)
Theorem mc_call_prc_computation (self : OptionPricing) (k : Spec.OptionKind) (g : rng) :
  (0 < sims self)%Z -> (0 < steps self)%Z ->
  opt_type self = Spec.kind_name k ->
  fst (mc_call_prc randn self g) =
  Ok (Line "Monte Carlo Simulation: "
        (Spec.monte_carlo_price k (spot self) (strike self) (rf self)
           (sigma self) (capt self)
           (Z.to_nat (steps self)) (Z.to_nat (sims self)) (nth_draw randn g))).
Proof.
  intros Hsims Hsteps Hk.
  destruct (opt_type_eqb_kind self k Hk) as [Hc Hp].
  rewrite mc_call_prc_of. cbn [fst].
  rewrite _mc_simulation_final_prices by lia. cbn [fst].
  rewrite (map_ext _ _ (fun j => final_price_last self g j (Z.lt_le_incl _ _ Hsteps))).
  unfold payoffs_of. rewrite Hc, Hp.
  unfold Spec.monte_carlo_price, np.mean, np.maximum_0, np.sum.
  destruct k; cbn [report_of Spec.payoff];
    rewrite !length_map, length_seq, !map_map;
    replace (rf self * -1 * capt self) with (- rf self * capt self) by ring;
    reflexivity.
Qed.

(** C9. Two invocations of the Monte Carlo pricer with identical
    parameters whose random source delivers the same draws, as it does from
    one fixed seed, report identical values. *)
Theorem mc_call_prc_deterministic (self : OptionPricing) (g1 g2 : rng) :
  (forall i : nat,
     (i < Z.to_nat (sims self) * Z.to_nat (steps self))%nat ->
     nth_draw randn g1 i = nth_draw randn g2 i) ->
  fst (mc_call_prc randn self g1) = fst (mc_call_prc randn self g2).
Proof.
  intros H. rewrite !mc_call_prc_of. cbn [fst].
  now rewrite (_mc_simulation_draws randn self g1 g2 H).
Qed.

(** What the entry points do with an unrecognised option type. *)
Lemma _mc_option_payoffs_other (self : OptionPricing) (g : rng) :
  opt_type self <> "Call" -> opt_type self <> "Put" ->
  steps self <> 0%Z ->
  fst (_mc_option_payoffs randn self g)
  = Ok (PyStr "Unrecognized option. Input 'Call' or 'Put'").
Proof.
  intros H1 H2 Hs. destruct (opt_type_eqb_other self H1 H2) as [Hc Hp].
  rewrite _mc_option_payoffs_of, _mc_simulation_final_prices by assumption.
  cbn [fst payoffs_of]. now rewrite Hc, Hp.
Qed.

Lemma mc_call_prc_other (self : OptionPricing) (g : rng) :
  opt_type self <> "Call" -> opt_type self <> "Put" ->
  fst (mc_call_prc randn self g)
  = Raise (if (steps self =? 0)%Z then ZeroDivisionError else TypeError).
Proof.
  intros H1 H2. destruct (opt_type_eqb_other self H1 H2) as [Hc Hp].
  rewrite mc_call_prc_of. cbn [fst].
  destruct (Z.eqb_spec (steps self) 0) as [Hs | Hs].
  - now rewrite _mc_simulation_zero_steps.
  - rewrite _mc_simulation_final_prices by assumption.
    cbn [fst payoffs_of]. now rewrite Hc, Hp.
Qed.

Lemma black_sholes_price_other (self : OptionPricing) :
  opt_type self <> "Call" -> opt_type self <> "Put" ->
  black_sholes_price self = Raise AttributeError.
Proof.
  intros H1 H2. unfold black_sholes_price.
  now rewrite black_sholes_value_other.
Qed.

(** C10. For an option type other than 'Call' and 'Put' neither pricing
    entry point completes with a value: [_mc_option_payoffs] returns the
    message, so [mc_call_prc] raises TypeError when it multiplies it by the
    discount factor; [black_sholes_price] binds the message to [price], so
    [price.item()] raises AttributeError.  ([steps] is not 0: the
    constructor sets it to 500.) *)
Theorem unrecognized_option_aborts (self : OptionPricing) (g : rng) :
  opt_type self <> "Call" -> opt_type self <> "Put" ->
  steps self <> 0%Z ->
  fst (_mc_option_payoffs randn self g)
  = Ok (PyStr "Unrecognized option. Input 'Call' or 'Put'")
  /\ fst (mc_call_prc randn self g) = Raise TypeError
  /\ black_sholes_value self
     = PyStr "Option type not recognized. Please use 'Call' or 'Put'."
  /\ black_sholes_price self = Raise AttributeError.
Proof.
  intros H1 H2 Hs. split; [| split; [| split]].
  - now apply _mc_option_payoffs_other.
  - rewrite mc_call_prc_other by assumption.
    apply Z.eqb_neq in Hs. now rewrite Hs.
  - now apply black_sholes_value_other.
  - now apply black_sholes_price_other.
Qed.

(** C5, as the program behaves.  For an option type outside {Call, Put}
    both pricers fail rather than deliver any value, the analytic pricer
    with AttributeError and the Monte Carlo pricer with TypeError
    (ZeroDivisionError when [steps] is 0), never with UnsupportedOptionKind;
    no entry point delivers a string in place of a price, while the helper
    [_mc_option_payoffs] returns the message in place of the mean payoff. *)
Theorem unrecognized_option_failure (self : OptionPricing) (g : rng) :
  opt_type self <> "Call" -> opt_type self <> "Put" ->
  (exists e : exn,
     fst (mc_call_prc randn self g) = Raise e
     /\ (e = TypeError \/ e = ZeroDivisionError)
     /\ e <> UnsupportedOptionKind)
  /\ (exists e : exn,
        black_sholes_price self = Raise e
        /\ e = AttributeError
        /\ e <> UnsupportedOptionKind)
  /\ (steps self <> 0%Z ->
      fst (_mc_option_payoffs randn self g)
      = Ok (PyStr "Unrecognized option. Input 'Call' or 'Put'")).
Proof.
  intros H1 H2. split; [| split].
  - eexists. split; [now apply mc_call_prc_other |].
    destruct (steps self =? 0)%Z; split; auto; discriminate.
  - exists AttributeError. split; [now apply black_sholes_price_other |].
    split; [reflexivity | discriminate].
  - intros Hs. now apply _mc_option_payoffs_other.
Qed.

End MonteCarloClaims.

Lemma straddle_not_call : opt_type (at_the_money "Straddle") <> "Call".
Proof. discriminate. Qed.

Lemma straddle_not_put : opt_type (at_the_money "Straddle") <> "Put".
Proof. discriminate. Qed.

Lemma mc_call_prc_computation_witness :
  fst (mc_call_prc zero_randn (small_run "Call") 0%nat) =
  Ok (Line "Monte Carlo Simulation: "
        (Spec.monte_carlo_price Spec.Call 100 100 0.05 0.2 1 2 2
           (nth_draw zero_randn 0%nat))).
Proof.
  apply (mc_call_prc_computation zero_randn (small_run "Call") Spec.Call 0%nat);
    [reflexivity | reflexivity | reflexivity].
Defined.

Lemma mc_call_prc_deterministic_witness :
  fst (mc_call_prc zero_randn (small_run "Call") 0%nat)
  = fst (mc_call_prc zero_randn (small_run "Call") 7%nat).
Proof.
  apply (mc_call_prc_deterministic zero_randn (small_run "Call") 0%nat 7%nat).
  intros i Hi. reflexivity.
Defined.

Lemma unrecognized_option_aborts_witness :
  fst (_mc_option_payoffs zero_randn (at_the_money "Straddle") 0%nat)
  = Ok (PyStr "Unrecognized option. Input 'Call' or 'Put'")
  /\ fst (mc_call_prc zero_randn (at_the_money "Straddle") 0%nat) = Raise TypeError
  /\ black_sholes_value (at_the_money "Straddle")
     = PyStr "Option type not recognized. Please use 'Call' or 'Put'."
  /\ black_sholes_price (at_the_money "Straddle") = Raise AttributeError.
Proof.
  apply (unrecognized_option_aborts zero_randn (at_the_money "Straddle") 0%nat);
    discriminate.
Defined.

Lemma unrecognized_option_failure_witness :
  (exists e : exn,
     fst (mc_call_prc zero_randn (at_the_money "Straddle") 0%nat) = Raise e
     /\ (e = TypeError \/ e = ZeroDivisionError)
     /\ e <> UnsupportedOptionKind)
  /\ (exists e : exn,
        black_sholes_price (at_the_money "Straddle") = Raise e
        /\ e = AttributeError
        /\ e <> UnsupportedOptionKind)
  /\ fst (_mc_option_payoffs zero_randn (at_the_money "Straddle") 0%nat)
     = Ok (PyStr "Unrecognized option. Input 'Call' or 'Put'").
Proof.
  destruct (unrecognized_option_failure zero_randn (at_the_money "Straddle") 0%nat
              straddle_not_call straddle_not_put) as [Hm [Hb Hp]].
  split; [exact Hm | split; [exact Hb | apply Hp; discriminate]].
Defined.

(** C5 fails as stated: for the option type "Straddle" the analytic pricer
    fails with AttributeError and the Monte Carlo pricer with TypeError, not
    with UnsupportedOptionKind, and [_mc_option_payoffs] returns a string
    where the mean payoff is expected. *)
Lemma unsupported_kind_not_raised :
  black_sholes_price (at_the_money "Straddle") = Raise AttributeError
  /\ black_sholes_price (at_the_money "Straddle") <> Raise UnsupportedOptionKind
  /\ fst (mc_call_prc zero_randn (at_the_money "Straddle") 0%nat) = Raise TypeError
  /\ fst (mc_call_prc zero_randn (at_the_money "Straddle") 0%nat)
     <> Raise UnsupportedOptionKind
  /\ fst (_mc_option_payoffs zero_randn (at_the_money "Straddle") 0%nat)
     = Ok (PyStr "Unrecognized option. Input 'Call' or 'Put'").
Proof.
  pose proof (black_sholes_price_other _ straddle_not_call straddle_not_put) as Hb.
  pose proof (mc_call_prc_other zero_randn _ 0%nat straddle_not_call straddle_not_put)
    as Hm.
  change (steps (at_the_money "Straddle") =? 0)%Z with false in Hm.
  split; [exact Hb |].
  split; [rewrite Hb; discriminate |].
  split; [exact Hm |].
  split; [rewrite Hm; discriminate |].
  apply _mc_option_payoffs_other; discriminate.
Qed.

(* ================================================================== *)
(** * The volatility estimate *)

Module Estimator.

(** The simple returns of the prices [s] that follow the price [prev]. *)
Fixpoint returns_from (prev : R) (s : list R) : list R :=
  match s with
  | [] => []
  | p :: s' => (p - prev) / prev :: returns_from p s'
  end.

Lemma simple_returns_cons (p : R) (s : list R) :
  Spec.simple_returns (p :: s) = returns_from p s.
Proof.
  unfold Spec.simple_returns.
  replace (length (p :: s) - 1)%nat with (length s) by (simpl; lia).
  revert p. induction s as [| q s IH]; intros p; [reflexivity |].
  cbn [length seq map returns_from]. f_equal.
  rewrite <- IH, <- (seq_shift (length s) 1), map_map.
  apply map_ext_in. intros i Hi. apply in_seq in Hi.
  destruct i as [| i]; [lia |].
  replace (S (S i) - 1)%nat with (S (S i - 1)) by lia. reflexivity.
Qed.

Lemma returns_from_length (p : R) (s : list R) :
  length (returns_from p s) = length s.
Proof. revert p. induction s as [| q s IH]; intros p; simpl; auto. Qed.

Lemma change_nonzero (p prev : R) :
  prev <> 0 -> pd.change p prev = pd.Fin ((p - prev) / prev).
Proof.
  intros H. unfold pd.change.
  destruct (Req_dec_T prev 0) as [E | _]; [contradiction |].
  f_equal. now field.
Qed.

Lemma pct_change_from_nonzero (p : R) (s : list R) :
  p <> 0 -> Forall (fun q => q <> 0) s ->
  pd.pct_change_from p s = map pd.Fin (returns_from p s).
Proof.
  intros Hp Hs. revert p Hp.
  induction Hs as [| q s Hq Hs IH]; intros p Hp; [reflexivity |].
  cbn [pd.pct_change_from returns_from map].
  now rewrite change_nonzero, IH.
Qed.

Lemma dropna_Fin (xs : list R) : pd.dropna (map pd.Fin xs) = map pd.Fin xs.
Proof. induction xs as [| x xs IH]; simpl; [reflexivity | now rewrite IH]. Qed.

Lemma finite_values_Fin (xs : list R) :
  pd.finite_values (map pd.Fin xs) = Some xs.
Proof. induction xs as [| x xs IH]; simpl; [reflexivity | now rewrite IH]. Qed.

(** The variance the library computes is the square of the sample standard
    deviation of the specification. *)
Lemma sqrt_var_ddof1 (xs : list R) :
  (1 <= length xs)%nat -> sqrt (pd.var_ddof1 xs) = Spec.sample_std xs.
Proof.
  intros Hn. unfold pd.var_ddof1, Spec.sample_std, np.sum.
  rewrite minus_INR by assumption. cbn [INR]. do 3 f_equal.
  apply map_ext. intros x. ring.
Qed.

Lemma std_pct_change_nonzero (p : R) (s : list R) :
  (2 <= length s)%nat -> p <> 0 -> Forall (fun q => q <> 0) s ->
  pd.std (pd.pct_change (p :: s)) = pd.Fin (Spec.sample_std (returns_from p s)).
Proof.
  intros Hn Hp Hs. unfold pd.std. cbn [pd.pct_change pd.dropna].
  rewrite pct_change_from_nonzero, dropna_Fin, finite_values_Fin by assumption.
  rewrite length_map, returns_from_length.
  destruct (Nat.leb_spec (length s) 1) as [Hle | _]; [lia |].
  rewrite sqrt_var_ddof1 by (rewrite returns_from_length; lia). reflexivity.
Qed.



Lemma sum_all_equal (xs : list R) (r : R) :
  (forall x, In x xs -> x = r) -> fold_right Rplus 0 xs = INR (length xs) * r.
Proof.
  induction xs as [| x xs IH]; intros H.
  - simpl. lra.
  - cbn [fold_right length]. rewrite S_INR, (H x) by now left.
    rewrite IH; [lra | intros y Hy; apply H; now right].
Qed.


End Estimator.



Definition growing_closes : list R := [100; 110; 121].






(* ================================================================== *)
(** * Further properties of the path generator *)

Section PathProperties.

Context {rng : Type} (randn : rng -> R * rng).

(** The sum of the first [i] draws a generator in state [g] delivers. *)
Definition draw_sum (g : rng) (i : nat) : R :=
  fold_right Rplus 0 (map (nth_draw randn g) (seq 0 i)).

Lemma draw_sum_S (g : rng) (i : nat) :
  draw_sum g (S i) = draw_sum g i + nth_draw randn g i.
Proof.
  unfold draw_sum. rewrite seq_S, map_app, fold_right_app. cbn [map fold_right plus].
  generalize (map (nth_draw randn g) (seq 0 i)) as l.
  induction l as [| x l IH]; simpl; [lra | rewrite IH; lra].
Qed.

(** The element [i] of a path in closed form: the logarithm of the price
    is a random walk with drift. *)
Lemma path_elem_closed_form (rf sigma t s0 : R) (g : rng) (i : nat) :
  Spec.path_elem rf sigma t s0 (step_draw randn g) i =
  s0 * exp (INR i * ((rf - 0.5 * sigma ^ 2) * t)
            + sigma * sqrt t * draw_sum g i).
Proof.
  induction i as [| i IH].
  - cbn [Spec.path_elem]. unfold draw_sum. simpl.
    replace (0 * ((rf - 0.5 * (sigma * (sigma * 1))) * t) + sigma * sqrt t * 0)
      with 0 by ring.
    rewrite exp_0. ring.
  - cbn [Spec.path_elem]. rewrite IH, Rmult_assoc, <- exp_plus.
    rewrite S_INR, draw_sum_S. unfold step_draw.
    replace (S i - 1)%nat with i by lia.
    f_equal. f_equal. ring.
Qed.

Lemma path_elem_scale (rf sigma t c s0 : R) (Z : nat -> R) (i : nat) :
  Spec.path_elem rf sigma t (c * s0) Z i = c * Spec.path_elem rf sigma t s0 Z i.
Proof.
  induction i as [| i IH]; cbn [Spec.path_elem]; [reflexivity |].
  rewrite IH. ring.
Qed.

(** The elements after element [a] are those of a path that starts at
    element [a] with the draws that follow. *)
Lemma path_elem_add (rf sigma t s0 : R) (Z : nat -> R) (a i : nat) :
  Spec.path_elem rf sigma t s0 Z (a + i) =
  Spec.path_elem rf sigma t (Spec.path_elem rf sigma t s0 Z a)
    (fun j => Z (a + j)%nat) i.
Proof.
  induction i as [| i IH].
  - now rewrite Nat.add_0_r.
  - rewrite Nat.add_succ_r. cbn [Spec.path_elem]. now rewrite IH, Nat.add_succ_r.
Qed.

(** X1. The generator is left where one draw for each step has been taken; a
    step count that is not positive takes none. *)
Theorem geometric_path_generator (rf s0 sigma t : R) (t_steps : Z) (g : rng) :
  snd (geometric_path randn rf s0 sigma t t_steps g)
  = advance randn (Z.to_nat t_steps) g
  /\ forall i : nat,
       nth_draw randn (snd (geometric_path randn rf s0 sigma t t_steps g)) i
       = nth_draw randn g (Z.to_nat t_steps + i).
Proof.
  rewrite geometric_path_generatePath. cbn [snd].
  split; [reflexivity | intros i; apply nth_draw_advance].
Qed.

(** X2. Element [i] of the path is the initial price times the exponential of
    [i] times the drift of one step plus volatility times sqrt(t) times the
    sum of the first [i] draws. *)
Theorem geometric_path_closed_form (rf s0 sigma t : R) (t_steps : Z) (g : rng)
    (i : nat) :
  (Z.of_nat i <= t_steps)%Z ->
  nth i (fst (geometric_path randn rf s0 sigma t t_steps g)) 0 =
  s0 * exp (INR i * ((rf - 0.5 * sigma ^ 2) * t)
            + sigma * sqrt t * draw_sum g i).
Proof.
  intros Hi. rewrite geometric_path_generatePath. cbn [fst].
  rewrite generatePath_nth by lia. apply path_elem_closed_form.
Qed.

(** X3. Without volatility and for a step interval that is not negative the
    path does not depend on the draws: element [i] is the number that is
    the initial price compounded at the rate [rf] over [i] steps.  (For a
    negative step interval it is nan, as for every volatility.) *)
Theorem geometric_path_zero_volatility (rf s0 t : R) (t_steps : Z) (g : rng)
    (i : nat) :
  0 <= t -> (Z.of_nat i <= t_steps)%Z ->
  nth i (fst (geometric_path_f64 randn rf s0 0 t t_steps g)) (f64.Num 0)
  = f64.Num (s0 * exp (rf * (INR i * t))).
Proof.
  intros Ht Hi. rewrite geometric_path_f64_numbers by assumption. cbn [fst].
  rewrite map_nth, geometric_path_generatePath. cbn [fst].
  rewrite generatePath_nth by lia. rewrite path_elem_closed_form.
  f_equal. f_equal. f_equal. ring.
Qed.

(** For a step count that is not positive the path is the initial price
    alone and no draw is taken. *)
Lemma geometric_path_no_steps (rf s0 sigma t : R) (t_steps : Z) (g : rng) :
  (t_steps <= 0)%Z ->
  geometric_path randn rf s0 sigma t t_steps g = ([s0], g).
Proof.
  intros Hn. unfold geometric_path.
  replace (Z.to_nat t_steps) with 0%nat by lia. reflexivity.
Qed.

(** X4. The path is homogeneous in the initial price: starting from [c * s0]
    with the same draws multiplies every element by [c]. *)
Theorem geometric_path_scale (rf s0 sigma t c : R) (t_steps : Z) (g : rng) :
  geometric_path randn rf (c * s0) sigma t t_steps g =
  (map (Rmult c) (fst (geometric_path randn rf s0 sigma t t_steps g)),
   snd (geometric_path randn rf s0 sigma t t_steps g)).
Proof.
  rewrite !geometric_path_generatePath. cbn [fst snd]. f_equal.
  unfold Spec.generatePath. rewrite map_map.
  apply map_ext. intros i. apply path_elem_scale.
Qed.

Lemma seq_add_map (a s l : nat) :
  seq (a + s) l = map (fun i => (a + i)%nat) (seq s l).
Proof.
  revert s. induction l as [| l IH]; intros s; [reflexivity |].
  cbn [seq map]. f_equal. rewrite <- IH. f_equal. lia.
Qed.

(** X5. A path of [a + b] steps is a path of [a] steps continued by a path of
    [b] steps that starts at its last price with the generator as the first
    path leaves it. *)
Theorem geometric_path_compose (rf s0 sigma t : R) (a b : Z) (g : rng) :
  (0 <= a)%Z -> (0 <= b)%Z ->
  let first := geometric_path randn rf s0 sigma t a g in
  let second :=
    geometric_path randn rf (last (fst first) 0) sigma t b (snd first) in
  geometric_path randn rf s0 sigma t (a + b) g
  = (fst first ++ tl (fst second), snd second).
Proof.
  intros Ha Hb first second. subst first second.
  rewrite !geometric_path_generatePath. cbn [fst snd].
  rewrite generatePath_last.
  rewrite Z2Nat.inj_add by assumption.
  f_equal; [| now rewrite advance_add].
  unfold Spec.generatePath.
  replace (Z.to_nat b + 1)%nat with (S (Z.to_nat b)) by lia.
  cbn [seq map tl].
  replace (Z.to_nat a + Z.to_nat b + 1)%nat
    with ((Z.to_nat a + 1) + Z.to_nat b)%nat by lia.
  rewrite seq_app, map_app. f_equal.
  replace (0 + (Z.to_nat a + 1))%nat with (Z.to_nat a + 1)%nat by lia.
  rewrite seq_add_map, map_map.
  apply map_ext_in. intros i Hi. apply in_seq in Hi.
  rewrite path_elem_add. apply path_elem_ext. intros j Hj.
  unfold step_draw. rewrite nth_draw_advance. f_equal. lia.
Qed.

End PathProperties.

(* ================================================================== *)
(** * Further properties of the Monte Carlo pricer *)

Section MonteCarloProperties.

Context {rng : Type} (randn : rng -> R * rng).

(** The final prices of a run that starts with the generator in state
    [g]. *)
Definition final_prices_of (self : OptionPricing) (g : rng) : list R :=
  map (final_price randn self g) (seq 0 (Z.to_nat (sims self))).

(** The discounted mean payoff of option kind [k] over final prices. *)
Definition discounted_mean_payoff (self : OptionPricing) (k : Spec.OptionKind)
    (final_prices : list R) : R :=
  np.mean (map (Spec.payoff k (strike self)) final_prices)
  * exp (- rf self * capt self).

Lemma mc_call_prc_kind (self : OptionPricing) (k : Spec.OptionKind) (g : rng) :
  steps self <> 0%Z -> opt_type self = Spec.kind_name k ->
  fst (mc_call_prc randn self g) =
  Ok (Line "Monte Carlo Simulation: "
        (discounted_mean_payoff self k (final_prices_of self g))).
Proof.
  intros Hs Hk. destruct (opt_type_eqb_kind self k Hk) as [Hc Hp].
  rewrite mc_call_prc_of, _mc_simulation_final_prices by assumption.
  cbn [fst payoffs_of]. rewrite Hc, Hp.
  unfold discounted_mean_payoff, final_prices_of, np.maximum_0.
  destruct k; cbn [report_of]; rewrite !map_map;
    replace (rf self * -1 * capt self) with (- rf self * capt self) by ring;
    reflexivity.
Qed.

Lemma final_prices_of_length (self : OptionPricing) (g : rng) :
  length (final_prices_of self g) = Z.to_nat (sims self).
Proof. unfold final_prices_of. now rewrite length_map, length_seq. Qed.

Lemma path_elem_not_negative (rf sigma t s0 : R) (Z : nat -> R) (i : nat) :
  0 <= s0 -> 0 <= Spec.path_elem rf sigma t s0 Z i.
Proof.
  intros Hs0. induction i as [| i IH]; cbn [Spec.path_elem]; [exact Hs0 |].
  apply Rmult_le_pos; [exact IH | left; apply exp_pos].
Qed.

Lemma final_prices_of_not_negative (self : OptionPricing) (g : rng) :
  0 <= spot self -> Forall (fun s => 0 <= s) (final_prices_of self g).
Proof.
  intros Hs. unfold final_prices_of. apply Forall_forall. intros s Hin.
  apply in_map_iff in Hin. destruct Hin as [j [<- _]].
  unfold final_price. now apply path_elem_not_negative.
Qed.

Lemma final_prices_of_set_opt_type (self : OptionPricing) (k : string) (g : rng) :
  final_prices_of (set_opt_type self k) g = final_prices_of self g.
Proof. reflexivity. Qed.

Lemma sum_payoff_nonneg (k : Spec.OptionKind) (K : R) (l : list R) :
  0 <= np.sum (map (Spec.payoff k K) l).
Proof.
  unfold np.sum. induction l as [| x l IH]; simpl; [lra |].
  assert (0 <= Spec.payoff k K x) by (destruct k; apply Rmax_r). lra.
Qed.

Lemma payoff_parity (K x : R) :
  Spec.payoff Spec.Call K x - Spec.payoff Spec.Put K x = x - K.
Proof.
  unfold Spec.payoff, Rmax.
  destruct (Rle_dec (x - K) 0), (Rle_dec (K - x) 0); lra.
Qed.

Lemma sum_payoff_parity (K : R) (l : list R) :
  np.sum (map (Spec.payoff Spec.Call K) l) - np.sum (map (Spec.payoff Spec.Put K) l)
  = np.sum l - INR (length l) * K.
Proof.
  unfold np.sum. induction l as [| x l IH].
  - simpl. lra.
  - cbn [map fold_right length]. rewrite S_INR.
    pose proof (payoff_parity K x). lra.
Qed.

Lemma sum_put_payoff_le (K : R) (l : list R) :
  0 <= K -> Forall (fun s => 0 <= s) l ->
  np.sum (map (Spec.payoff Spec.Put K) l) <= INR (length l) * K.
Proof.
  intros HK Hl. unfold np.sum. induction Hl as [| x l Hx Hl IH].
  - simpl. lra.
  - cbn [map fold_right length]. rewrite S_INR.
    assert (Spec.payoff Spec.Put K x <= K)
      by (unfold Spec.payoff; apply Rmax_lub; lra).
    lra.
Qed.

Lemma sum_all_same (l : list R) (c : R) :
  (forall x, In x l -> x = c) -> np.sum l = INR (length l) * c.
Proof. apply Estimator.sum_all_equal. Qed.

(** X7. Whatever the option type, a run with [steps] other than 0 takes
    [sims * steps] draws: also a run that fails for an unrecognised option
    type has simulated every path before it fails. *)
Theorem mc_call_prc_generator (self : OptionPricing) (g : rng) :
  steps self <> 0%Z ->
  snd (mc_call_prc randn self g)
  = advance randn (Z.to_nat (sims self) * Z.to_nat (steps self)) g.
Proof.
  intros Hs. rewrite mc_call_prc_of, _mc_simulation_final_prices by assumption.
  reflexivity.
Qed.

(** X8. With [steps = 0] the run fails with ZeroDivisionError for every option
    type and takes no draw. *)
Theorem mc_call_prc_zero_steps (self : OptionPricing) (g : rng) :
  steps self = 0%Z ->
  mc_call_prc randn self g = (Raise ZeroDivisionError, g).
Proof.
  intros Hs. rewrite mc_call_prc_of, _mc_simulation_zero_steps by assumption.
  reflexivity.
Qed.

(** X9. The Monte Carlo pricer prints a price exactly when [steps] is not 0 and
    the option type is 'Call' or 'Put'. *)
Theorem mc_call_prc_succeeds_iff (self : OptionPricing) (g : rng) :
  (exists l : line, fst (mc_call_prc randn self g) = Ok l)
  <-> steps self <> 0%Z /\ (opt_type self = "Call" \/ opt_type self = "Put").
Proof.
  split.
  - intros [l Hl]. split.
    + intros Hs. rewrite mc_call_prc_of, _mc_simulation_zero_steps in Hl by assumption.
      discriminate.
    + destruct (string_dec (opt_type self) "Call") as [Hc | Hc]; [now left |].
      destruct (string_dec (opt_type self) "Put") as [Hp | Hp]; [now right |].
      rewrite mc_call_prc_other in Hl by assumption. discriminate.
  - intros [Hs [Hk | Hk]]; eexists.
    + now apply (mc_call_prc_kind self Spec.Call).
    + now apply (mc_call_prc_kind self Spec.Put).
Qed.

(** X6. For [steps > 0], a time to maturity that is not negative and a
    positive spot price, [_mc_simulation] returns [sims] final prices (none
    for a negative [sims]), none of them negative. *)
Theorem _mc_simulation_final_prices_not_negative (self : OptionPricing) (g : rng) :
  (0 < steps self)%Z -> 0 <= capt self -> 0 < spot self ->
  exists final_prices : list R,
    fst (_mc_simulation randn self g) = Ok final_prices
    /\ length final_prices = Z.to_nat (sims self)
    /\ Forall (fun s => 0 <= s) final_prices.
Proof.
  intros Hs _ Hspot. exists (final_prices_of self g). split; [| split].
  - rewrite _mc_simulation_final_prices by lia. reflexivity.
  - apply final_prices_of_length.
  - apply final_prices_of_not_negative. lra.
Qed.

(** X10. The price the Monte Carlo pricer prints for a Call or a Put is never
    negative. *)
Theorem mc_call_prc_nonnegative (self : OptionPricing) (k : Spec.OptionKind)
    (g : rng) :
  steps self <> 0%Z -> (0 < sims self)%Z ->
  opt_type self = Spec.kind_name k ->
  exists price : R,
    fst (mc_call_prc randn self g) = Ok (Line "Monte Carlo Simulation: " price)
    /\ 0 <= price.
Proof.
  intros Hs Hn Hk. eexists. split; [now apply (mc_call_prc_kind self k) |].
  unfold discounted_mean_payoff, np.mean.
  apply Rmult_le_pos; [| left; apply exp_pos].
  apply Rmult_le_pos; [apply sum_payoff_nonneg |].
  left. apply Rinv_0_lt_compat.
  rewrite length_map, final_prices_of_length. apply lt_0_INR. lia.
Qed.

(** X11. Put-call parity of the simulation: on the same draws the Call price
    minus the Put price is the discounted difference of the mean final
    price and the strike. *)
Theorem mc_call_prc_parity (self : OptionPricing) (g : rng) :
  steps self <> 0%Z -> (0 < sims self)%Z ->
  exists (c p : R) (final_prices : list R),
    fst (_mc_simulation randn self g) = Ok final_prices
    /\ fst (mc_call_prc randn (set_opt_type self "Call") g)
       = Ok (Line "Monte Carlo Simulation: " c)
    /\ fst (mc_call_prc randn (set_opt_type self "Put") g)
       = Ok (Line "Monte Carlo Simulation: " p)
    /\ c - p = (np.mean final_prices - strike self) * exp (- rf self * capt self).
Proof.
  intros Hs Hn.
  exists (discounted_mean_payoff self Spec.Call (final_prices_of self g)),
         (discounted_mean_payoff self Spec.Put (final_prices_of self g)),
         (final_prices_of self g).
  split; [now rewrite _mc_simulation_final_prices |].
  split; [exact (mc_call_prc_kind (set_opt_type self "Call") Spec.Call g Hs eq_refl) |].
  split; [exact (mc_call_prc_kind (set_opt_type self "Put") Spec.Put g Hs eq_refl) |].
  unfold discounted_mean_payoff, np.mean. rewrite !length_map.
  pose proof (sum_payoff_parity (strike self) (final_prices_of self g)) as Hsum.
  assert (HN : INR (length (final_prices_of self g)) <> 0).
  { rewrite final_prices_of_length. apply not_0_INR. lia. }
  replace (np.sum (map (Spec.payoff Spec.Call (strike self)) (final_prices_of self g)))
    with (np.sum (map (Spec.payoff Spec.Put (strike self)) (final_prices_of self g))
          + (np.sum (final_prices_of self g)
             - INR (length (final_prices_of self g)) * strike self)) by lra.
  field. exact HN.
Qed.

(** X12. For [steps > 0], [sims > 0], a time to maturity that is not
    negative, a positive spot price and a strike that is not negative, the
    Put price of the simulation is at most the discounted strike: no final
    price is negative, so no payoff exceeds the strike. *)
Theorem mc_call_prc_put_bound (self : OptionPricing) (g : rng) :
  (0 < steps self)%Z -> (0 < sims self)%Z -> 0 <= capt self ->
  opt_type self = "Put" -> 0 < spot self -> 0 <= strike self ->
  exists price : R,
    fst (mc_call_prc randn self g) = Ok (Line "Monte Carlo Simulation: " price)
    /\ price <= strike self * exp (- rf self * capt self).
Proof.
  intros Hs Hn _ Hk Hspot HK. eexists.
  split; [apply (mc_call_prc_kind self Spec.Put); [lia | exact Hk] |].
  unfold discounted_mean_payoff, np.mean. rewrite length_map.
  apply Rmult_le_compat_r; [left; apply exp_pos |].
  assert (HN : 0 < INR (length (final_prices_of self g))).
  { rewrite final_prices_of_length. apply lt_0_INR. lia. }
  pose proof (sum_put_payoff_le (strike self) (final_prices_of self g) HK
                (final_prices_of_not_negative self g (Rlt_le _ _ Hspot))) as Hle.
  apply (Rmult_le_reg_r (INR (length (final_prices_of self g)))); [exact HN |].
  unfold Rdiv. rewrite Rmult_assoc, Rinv_l by lra. lra.
Qed.

Lemma path_elem_zero_volatility (rf t s0 : R) (Z : nat -> R) (i : nat) :
  Spec.path_elem rf 0 t s0 Z i = s0 * exp (rf * (INR i * t)).
Proof.
  induction i as [| i IH].
  - cbn [Spec.path_elem INR]. replace (rf * (0 * t)) with 0 by ring.
    rewrite exp_0. ring.
  - cbn [Spec.path_elem]. rewrite IH, Rmult_assoc, <- exp_plus, S_INR.
    f_equal. f_equal. ring.
Qed.

(** X13. Without volatility the simulation is deterministic: for [steps > 0],
    [sims > 0] and a time to maturity that is not negative the price is the
    discounted payoff at the spot price compounded at the rate [rf] to
    maturity, whatever the draws. *)
Theorem mc_call_prc_zero_volatility (self : OptionPricing) (k : Spec.OptionKind)
    (g : rng) :
  sigma self = 0 -> (0 < steps self)%Z -> (0 < sims self)%Z ->
  0 <= capt self ->
  opt_type self = Spec.kind_name k ->
  fst (mc_call_prc randn self g) =
  Ok (Line "Monte Carlo Simulation: "
        (Spec.payoff k (strike self) (spot self * exp (rf self * capt self))
         * exp (- rf self * capt self))).
Proof.
  intros Hsig Hs Hn _ Hk.
  rewrite (mc_call_prc_kind self k) by (assumption || lia).
  unfold discounted_mean_payoff, np.mean. do 3 f_equal.
  assert (HN : INR (Z.to_nat (sims self)) <> 0) by (apply not_0_INR; lia).
  rewrite length_map, final_prices_of_length.
  rewrite (sum_all_same _
             (Spec.payoff k (strike self) (spot self * exp (rf self * capt self)))).
  - rewrite length_map, final_prices_of_length. now field.
  - intros x Hx. apply in_map_iff in Hx. destruct Hx as [s [<- Hin]].
    unfold final_prices_of in Hin. apply in_map_iff in Hin.
    destruct Hin as [j [<- _]]. unfold final_price.
    rewrite Hsig, path_elem_zero_volatility, IZR_to_nat by lia.
    do 3 f_equal. field. apply not_0_IZR. lia.
Qed.

End MonteCarloProperties.

(* ================================================================== *)
(** * Further properties of the analytic pricer *)

Module NormOrder.
Import norm.

(** The integral of the kernel from 0 to a positive end is positive: on
    [[0, x]] the kernel is at least [exp (- (x * x) / 2)]. *)
Lemma kernel_integral_pos (x : R) : 0 < x -> 0 < kernel_integral 0 x.
Proof.
  intros Hx. unfold kernel_integral.
  assert (Hb : forall t, 0 < t < x -> exp (- (x * x) / 2) <= pdf_kernel t <= 1).
  { intros t [Ht0 Htx]. unfold pdf_kernel. split.
    - left. apply exp_increasing. nra.
    - rewrite <- exp_0. left. apply exp_increasing. nra. }
  pose proof (@RiemannInt_const_bound pdf_kernel 0 x _ _
                (pdf_kernel_integrable 0 x) (Rlt_le _ _ Hx) Hb) as [Hlow _].
  pose proof (exp_pos (- (x * x) / 2)). nra.
Qed.

(** Phi exceeds 1/2 to the right of 0. *)
Lemma cdf_gt_half (x : R) : 0 < x -> 1 / 2 < cdf x.
Proof.
  intros Hx. unfold cdf.
  assert (0 < / sqrt (2 * PI)).
  { apply Rinv_0_lt_compat, sqrt_lt_R0. pose proof PI_RGT_0. lra. }
  pose proof (kernel_integral_pos x Hx). nra.
Qed.

End NormOrder.

(** X14. The analytic pricer prints a price exactly when the option type is
    'Call' or 'Put', whatever the numbers (it has no guard on strike,
    volatility or time to maturity), and the only exception it raises is
    AttributeError, exactly for the other option types. *)
Theorem black_sholes_price_outcome (self : OptionPricing) :
  ((exists l : line, black_sholes_price self = Ok l)
   <-> opt_type self = "Call" \/ opt_type self = "Put")
  /\ (black_sholes_price self = Raise AttributeError
      <-> opt_type self <> "Call" /\ opt_type self <> "Put")
  /\ forall e : exn, black_sholes_price self = Raise e -> e = AttributeError.
Proof.
  assert (Hok : opt_type self = "Call" \/ opt_type self = "Put" ->
                exists l : line, black_sholes_price self = Ok l).
  { unfold black_sholes_price. intros [Hk | Hk]; eexists.
    - now rewrite (black_sholes_value_kind self Spec.Call Hk).
    - now rewrite (black_sholes_value_kind self Spec.Put Hk). }
  split; [split; [| exact Hok] | split; [split |]].
  - intros [l Hl].
    destruct (string_dec (opt_type self) "Call") as [Hc | Hc]; [now left |].
    destruct (string_dec (opt_type self) "Put") as [Hp | Hp]; [now right |].
    rewrite black_sholes_price_other in Hl by assumption. discriminate.
  - intros Hr. split; intros Hk;
      [destruct (Hok (or_introl Hk)) as [l Hl]
      | destruct (Hok (or_intror Hk)) as [l Hl]];
      rewrite Hl in Hr; discriminate.
  - intros [Hc Hp]. now apply black_sholes_price_other.
  - intros e He. destruct (black_sholes_price_cases self) as [[x Hx] | Hx];
      rewrite Hx in He; [discriminate | now inversion He].
Qed.

(** X15. At the money forward, that is for strike = spot * exp(rf * capt), with
    positive spot, volatility and time to maturity, the Call and the Put
    have the same price, spot * (2 * Phi(sigma * sqrt(capt) / 2) - 1), and it
    is strictly positive. *)
Theorem black_sholes_price_at_the_money_forward (self : OptionPricing)
    (k : Spec.OptionKind) :
  0 < spot self -> 0 < sigma self -> 0 < capt self ->
  strike self = spot self * exp (rf self * capt self) ->
  opt_type self = Spec.kind_name k ->
  black_sholes_price self =
  Ok (Line "Black and Sholes Model: "
        (spot self * (2 * norm.cdf (sigma self * sqrt (capt self) / 2) - 1)))
  /\ 0 < spot self * (2 * norm.cdf (sigma self * sqrt (capt self) / 2) - 1).
Proof.
  intros HS Hsig HT HK Hk.
  assert (HsT : 0 < sqrt (capt self)) by now apply sqrt_lt_R0.
  split.
  - unfold black_sholes_price. rewrite (black_sholes_value_kind self k Hk).
    do 2 f_equal. unfold Spec.analytic_price, Spec.d2, Spec.d1.
    set (a := sigma self * sqrt (capt self) / 2).
    assert (Hln : ln (spot self / strike self) = - (rf self * capt self)).
    { rewrite HK. replace (spot self / (spot self * exp (rf self * capt self)))
        with (/ exp (rf self * capt self)) by (field; split; [apply Rgt_not_eq, exp_pos | lra]).
      rewrite ln_Rinv by apply exp_pos. now rewrite ln_exp. }
    assert (Hd1 : (ln (spot self / strike self)
                   + (rf self + sigma self ^ 2 / 2) * capt self)
                  / (sigma self * sqrt (capt self)) = a).
    { rewrite Hln. unfold a.
      rewrite <- (sqrt_sqrt (capt self)) at 1 2 by lra.
      field. split; lra. }
    rewrite Hd1.
    replace (a - sigma self * sqrt (capt self)) with (- a) by (unfold a; lra).
    assert (Hdisc : strike self * exp (- rf self * capt self) = spot self).
    { rewrite HK, Rmult_assoc, <- exp_plus.
      replace (rf self * capt self + - rf self * capt self) with 0 by ring.
      rewrite exp_0. ring. }
    rewrite Hdisc, Ropp_involutive, NormFacts.cdf_opp.
    destruct k; ring.
  - apply Rmult_lt_0_compat; [exact HS |].
    assert (1 / 2 < norm.cdf (sigma self * sqrt (capt self) / 2))
      by (apply NormOrder.cdf_gt_half; nra).
    lra.
Qed.

(* ================================================================== *)
(** * Further properties of the volatility estimate *)

Module EstimatorProperties.

Lemma change_scale (c p prev : R) :
  c <> 0 -> pd.change (c * p) (c * prev) = pd.change p prev.
Proof.
  intros Hc. unfold pd.change.
  destruct (Req_dec_T (c * prev) 0) as [E1 | E1], (Req_dec_T prev 0) as [E2 | E2].
  - destruct (Req_dec_T (c * p) 0) as [E3 | E3], (Req_dec_T p 0) as [E4 | E4];
      try reflexivity.
    + apply Rmult_integral in E3. destruct E3; contradiction.
    + subst p. rewrite Rmult_0_r in E3. contradiction.
  - apply Rmult_integral in E1. destruct E1; contradiction.
  - subst prev. rewrite Rmult_0_r in E1. contradiction.
  - f_equal. now field.
Qed.

Lemma pct_change_from_scale (c prev : R) (s : list R) :
  c <> 0 ->
  pd.pct_change_from (c * prev) (map (Rmult c) s) = pd.pct_change_from prev s.
Proof.
  intros Hc. revert prev. induction s as [| p s IH]; intros prev; [reflexivity |].
  cbn [map pd.pct_change_from]. now rewrite change_scale, IH.
Qed.

Lemma pct_change_scale (c : R) (s : list R) :
  c <> 0 -> pd.pct_change (map (Rmult c) s) = pd.pct_change s.
Proof.
  intros Hc. destruct s as [| p s]; [reflexivity |].
  cbn [map pd.pct_change]. now rewrite pct_change_from_scale.
Qed.

Lemma last_scale (c : R) (s : list R) :
  last (map (Rmult c) s) 0 = c * last s 0.
Proof.
  induction s as [| p s IH]; [simpl; ring |].
  destruct s as [| q s]; [reflexivity |].
  change (last (map (Rmult c) (p :: q :: s)) 0)
    with (last (map (Rmult c) (q :: s)) 0).
  rewrite IH. reflexivity.
Qed.

Lemma In_Inf_pct_change_from (prev p : R) (l1 l2 : list R) :
  p <> 0 -> In pd.Inf (pd.pct_change_from prev (l1 ++ 0 :: p :: l2)).
Proof.
  intros Hp. revert prev. induction l1 as [| a l1 IH]; intros prev.
  - cbn [app pd.pct_change_from]. right. left.
    unfold pd.change. destruct (Req_dec_T 0 0) as [_ | N]; [| now elim N].
    destruct (Req_dec_T p 0); [contradiction | reflexivity].
  - cbn [app pd.pct_change_from]. right. apply IH.
Qed.

Lemma In_Inf_dropna (s : list pd.float64) :
  In pd.Inf s -> In pd.Inf (pd.dropna s).
Proof.
  induction s as [| x s IH]; intros H; [contradiction |].
  destruct H as [-> | H].
  - now left.
  - destruct x; cbn [pd.dropna]; auto using in_cons.
Qed.

Lemma finite_values_Inf (s : list pd.float64) :
  In pd.Inf s -> pd.finite_values s = None.
Proof.
  induction s as [| x s IH]; intros H; [contradiction |].
  destruct H as [-> | H]; [reflexivity |].
  destruct x; cbn [pd.finite_values]; try reflexivity.
  now rewrite IH.
Qed.

Lemma std_Inf (s : list pd.float64) : In pd.Inf s -> pd.std s = pd.NaN.
Proof.
  intros H. unfold pd.std.
  rewrite (finite_values_Inf _ (In_Inf_dropna _ H)).
  now destruct (length (pd.dropna s) <=? 1)%nat.
Qed.

End EstimatorProperties.

(** X16. The volatility does not depend on the unit of the prices: closes
    multiplied by a factor other than 0 give the spot price multiplied by
    it and the same volatility. *)
Theorem _stock_info_scale (c : R) (df : list R) :
  c <> 0 ->
  _stock_info (map (Rmult c) df) =
  match _stock_info df with
  | Ok (spot, sigma) => Ok (c * spot, sigma)
  | Raise e => Raise e
  end.
Proof.
  intros Hc. unfold _stock_info.
  rewrite EstimatorProperties.pct_change_scale by assumption.
  destruct df as [| p s]; [reflexivity |].
  rewrite EstimatorProperties.last_scale. reflexivity.
Qed.

(** X17. A volatility that is a number is not negative. *)
Theorem _stock_info_volatility_nonnegative (df : list R) (spot sigma : R) :
  _stock_info df = Ok (spot, pd.Fin sigma) -> 0 <= sigma.
Proof.
  unfold _stock_info. destruct df as [| p s]; [discriminate |].
  unfold pd.std.
  destruct (length (pd.dropna (pd.pct_change (p :: s))) <=? 1)%nat;
    [discriminate |].
  destruct (pd.finite_values (pd.dropna (pd.pct_change (p :: s))));
    [| discriminate].
  cbn [pd.scale]. intros H. inversion H.
  apply Rmult_le_pos; apply sqrt_pos.
Qed.

(** X18. A close of 0 followed by a close other than 0 makes the volatility
    nan: the percentage change from 0 is infinite, and no exception is
    raised. *)
Theorem _stock_info_zero_close (l1 l2 : list R) (p : R) :
  p <> 0 ->
  let df := l1 ++ 0 :: p :: l2 in
  _stock_info df = Ok (last df 0, pd.NaN).
Proof.
  intros Hp df. unfold _stock_info.
  assert (Hinf : In pd.Inf (pd.pct_change df)).
  { subst df. destruct l1 as [| a l1].
    - cbn [app pd.pct_change pd.pct_change_from]. right. left.
      unfold pd.change. destruct (Req_dec_T 0 0) as [_ | N]; [| now elim N].
      destruct (Req_dec_T p 0); [contradiction | reflexivity].
    - cbn [app pd.pct_change]. right.
      now apply EstimatorProperties.In_Inf_pct_change_from. }
  rewrite (EstimatorProperties.std_Inf _ Hinf).
  subst df. destruct l1; reflexivity.
Qed.

(* ================================================================== *)
(** * The market price and the report *)

(** A row of the tables [option_chain] delivers, with the two columns the
    program reads. *)
Module option_chain.

Record row : Type := mkRow {
  strike : R;
  lastPrice : R
}.

End option_chain.

(** [table.loc[table.strike == k, 'lastPrice']]: the last prices of the rows
    whose strike is [k], in the order of the table. *)
Fixpoint loc_lastPrice (table : list option_chain.row) (k : R) : list R :=
  match table with
  | [] => []
  | r :: table' =>
      if Req_dec_T (option_chain.strike r) k
      then option_chain.lastPrice r :: loc_lastPrice table' k
      else loc_lastPrice table' k
  end.

(** [s.iloc[0]]: the first element; IndexError on an empty series. *)
Definition iloc_0 (s : list R) : result pyval :=
  match s with
  | [] => Raise IndexError
  | x :: _ => Ok (PyFloat x)
  end.

(** [_mkt_price], for the tables [calls] and [puts] that
    [yf.Ticker(self.underlying).option_chain(self.expiry)] delivers. *)
Definition _mkt_price (self : OptionPricing) (calls puts : list option_chain.row)
    : result pyval :=
  if (opt_type self =? "Call")%string then
    iloc_0 (loc_lastPrice calls (strike self))
  else if (opt_type self =? "Put")%string then
    iloc_0 (loc_lastPrice puts (strike self))
  else Ok (PyStr "Unrecognized option. Input 'Call' or 'Put'.").

(** What [main] prints: the title, the two lines that describe the option,
    and lines that end in a number with two decimals. *)
Inductive printed : Type :=
| Title (s : string)
| OptionTypeLine (opt_type : string) (strike : R)
| OptionNameLine (underlying : string) (spot : R)
| NumberLine (l : line).

(** The exceptions of [main]: those of the functions it calls, and the
    ValueError of the format [:.2f] applied to a [str]. *)
Inductive main_exn : Type :=
| Propagated (e : exn)
| ValueError.

Section Report.

Context {rng : Type} (randn : rng -> R * rng).

(** The three lines [main] prints before it asks for the market price. *)
Definition heading (self : OptionPricing) : list printed :=
  [Title "Option Pricing:";
   OptionTypeLine (opt_type self) (strike self);
   OptionNameLine (underlying self) (spot self)].

(** [main]: the lines printed, the exception that ended it if any, and the
    generator as it is left. *)
Definition main (self : OptionPricing) (calls puts : list option_chain.row)
    (g : rng) : (list printed * option main_exn) * rng :=
  match _mkt_price self calls puts with
  | Raise e => ((heading self, Some (Propagated e)), g)
  | Ok (PyStr _) => ((heading self, Some ValueError), g)
  | Ok (PyFloat market) =>
      let out := heading self ++ [NumberLine (Line "Market Price: " market)] in
      match mc_call_prc randn self g with
      | (Raise e, g') => ((out, Some (Propagated e)), g')
      | (Ok l, g') =>
          match black_sholes_price self with
          | Raise e => ((out ++ [NumberLine l], Some (Propagated e)), g')
          | Ok l' => ((out ++ [NumberLine l; NumberLine l'], None), g')
          end
      end
  end.

End Report.

(** The table [_mkt_price] reads for an option kind. *)
Definition table_of (k : Spec.OptionKind) (calls puts : list option_chain.row)
    : list option_chain.row :=
  match k with
  | Spec.Call => calls
  | Spec.Put => puts
  end.

Lemma _mkt_price_kind (self : OptionPricing) (k : Spec.OptionKind)
    (calls puts : list option_chain.row) :
  opt_type self = Spec.kind_name k ->
  _mkt_price self calls puts
  = iloc_0 (loc_lastPrice (table_of k calls puts) (strike self)).
Proof.
  intros Hk. destruct (opt_type_eqb_kind self k Hk) as [Hc Hp].
  unfold _mkt_price. rewrite Hc, Hp. now destruct k.
Qed.

Lemma _mkt_price_other (self : OptionPricing) (calls puts : list option_chain.row) :
  opt_type self <> "Call" -> opt_type self <> "Put" ->
  _mkt_price self calls puts
  = Ok (PyStr "Unrecognized option. Input 'Call' or 'Put'.").
Proof.
  intros H1 H2. destruct (opt_type_eqb_other self H1 H2) as [Hc Hp].
  unfold _mkt_price. now rewrite Hc, Hp.
Qed.

Lemma loc_lastPrice_skip (l1 l2 : list option_chain.row) (k : R) :
  Forall (fun r => option_chain.strike r <> k) l1 ->
  loc_lastPrice (l1 ++ l2) k = loc_lastPrice l2 k.
Proof.
  induction 1 as [| r l1 Hr Hl1 IH]; [reflexivity |].
  cbn [app loc_lastPrice].
  destruct (Req_dec_T (option_chain.strike r) k); [contradiction | exact IH].
Qed.

Lemma loc_lastPrice_nil (table : list option_chain.row) (k : R) :
  loc_lastPrice table k = [] <-> Forall (fun r => option_chain.strike r <> k) table.
Proof.
  induction table as [| r table IH]; cbn [loc_lastPrice].
  - split; [constructor | reflexivity].
  - destruct (Req_dec_T (option_chain.strike r) k) as [E | N].
    + split; [discriminate | intros H; inversion H; contradiction].
    + rewrite IH. split; [now constructor | intros H; now inversion H].
Qed.

(** X19. For 'Call' the market price is the last price of the first row of the
    calls table quoted at the strike of the option, for 'Put' that of the
    puts table; rows at other strikes and later rows at the same strike do
    not matter. *)
Theorem _mkt_price_first_quote (self : OptionPricing) (k : Spec.OptionKind)
    (calls puts l1 l2 : list option_chain.row) (r : option_chain.row) :
  opt_type self = Spec.kind_name k ->
  table_of k calls puts = l1 ++ r :: l2 ->
  Forall (fun r' => option_chain.strike r' <> strike self) l1 ->
  option_chain.strike r = strike self ->
  _mkt_price self calls puts = Ok (PyFloat (option_chain.lastPrice r)).
Proof.
  intros Hk Ht Hl1 Hr.
  rewrite (_mkt_price_kind self k) by assumption.
  rewrite Ht, loc_lastPrice_skip by assumption.
  cbn [loc_lastPrice].
  destruct (Req_dec_T (option_chain.strike r) (strike self));
    [reflexivity | contradiction].
Qed.

(** X20. [_mkt_price] raises IndexError exactly when the option type is 'Call'
    or 'Put' and no row of its table is quoted at the strike; it raises
    nothing else. *)
Theorem _mkt_price_index_error (self : OptionPricing)
    (calls puts : list option_chain.row) :
  (_mkt_price self calls puts = Raise IndexError
   <-> exists k : Spec.OptionKind,
         opt_type self = Spec.kind_name k
         /\ Forall (fun r => option_chain.strike r <> strike self)
              (table_of k calls puts))
  /\ forall e : exn, _mkt_price self calls puts = Raise e -> e = IndexError.
Proof.
  assert (Hi : forall s e, iloc_0 s = Raise e -> e = IndexError /\ s = []).
  { intros [| x s] e H; inversion H; auto. }
  assert (Hcases : (exists k, opt_type self = Spec.kind_name k)
                   \/ (opt_type self <> "Call" /\ opt_type self <> "Put")).
  { destruct (string_dec (opt_type self) "Call") as [Hc | Hc];
      [left; now exists Spec.Call |].
    destruct (string_dec (opt_type self) "Put") as [Hp | Hp];
      [left; now exists Spec.Put | right; now split]. }
  split; [split |].
  - intros H. destruct Hcases as [[k Hk] | [Hc Hp]].
    + exists k. split; [exact Hk |].
      rewrite (_mkt_price_kind self k) in H by assumption.
      apply loc_lastPrice_nil. now apply (Hi _ IndexError).
    + rewrite _mkt_price_other in H by assumption. discriminate.
  - intros [k [Hk Hf]]. rewrite (_mkt_price_kind self k) by assumption.
    apply loc_lastPrice_nil in Hf. now rewrite Hf.
  - intros e H. destruct Hcases as [[k Hk] | [Hc Hp]].
    + rewrite (_mkt_price_kind self k) in H by assumption. now apply Hi in H.
    + rewrite _mkt_price_other in H by assumption. discriminate.
Qed.

Section ReportProperties.

Context {rng : Type} (randn : rng -> R * rng).

(** X21. For an option type other than 'Call' and 'Put' [main] prints its
    heading and fails with ValueError when it formats the market price: it
    takes no draw, and neither pricer is ever called. *)
Theorem main_unrecognized_option (self : OptionPricing)
    (calls puts : list option_chain.row) (g : rng) :
  opt_type self <> "Call" -> opt_type self <> "Put" ->
  main randn self calls puts g = ((heading self, Some ValueError), g).
Proof.
  intros H1 H2. unfold main. now rewrite _mkt_price_other.
Qed.

(** X22. With option type 'Call' or 'Put', a market price found by
    [_mkt_price] and [steps] other than 0, [main] completes: after the heading it prints the
    market price, the Monte Carlo price and the Black-Scholes price, in this
    order, and leaves the generator [sims * steps] draws further. *)
Theorem main_report (self : OptionPricing) (k : Spec.OptionKind)
    (calls puts : list option_chain.row) (market : R) (g : rng) :
  opt_type self = Spec.kind_name k ->
  _mkt_price self calls puts = Ok (PyFloat market) ->
  steps self <> 0%Z ->
  main randn self calls puts g =
  ((heading self ++
    [NumberLine (Line "Market Price: " market);
     NumberLine (Line "Monte Carlo Simulation: "
                   (discounted_mean_payoff self k (final_prices_of randn self g)));
     NumberLine (Line "Black and Sholes Model: "
                   (Spec.analytic_price k (spot self) (strike self) (rf self)
                      (sigma self) (capt self)))],
    None),
   advance randn (Z.to_nat (sims self) * Z.to_nat (steps self)) g).
Proof.
  intros Hk Hm Hs. unfold main. rewrite Hm.
  pose proof (mc_call_prc_kind randn self k g Hs Hk) as Hmc.
  assert (Hg : snd (mc_call_prc randn self g)
               = advance randn (Z.to_nat (sims self) * Z.to_nat (steps self)) g)
    by now rewrite mc_call_prc_of, _mc_simulation_final_prices.
  destruct (mc_call_prc randn self g) as [r g']. cbn [fst snd] in Hmc, Hg.
  subst r g'. unfold black_sholes_price.
  rewrite (black_sholes_value_kind self k Hk).
  rewrite <- app_assoc. reflexivity.
Qed.

(** X23. [main] never fails with TypeError or AttributeError: an exception that
    ends it is ValueError (unrecognised option type), IndexError (no quote
    at the strike) or ZeroDivisionError ([steps] is 0). *)
Theorem main_exceptions (self : OptionPricing)
    (calls puts : list option_chain.row) (g : rng) (e : main_exn) :
  snd (fst (main randn self calls puts g)) = Some e ->
  (e = ValueError /\ opt_type self <> "Call" /\ opt_type self <> "Put")
  \/ (e = Propagated IndexError
      /\ _mkt_price self calls puts = Raise IndexError)
  \/ (e = Propagated ZeroDivisionError /\ steps self = 0%Z).
Proof.
  intros He.
  destruct (string_dec (opt_type self) "Call") as [Hc | Hc];
    [| destruct (string_dec (opt_type self) "Put") as [Hp | Hp]].
  3: { unfold main in He. rewrite _mkt_price_other in He by assumption.
       cbn [fst snd] in He. inversion He. left. auto. }
  all: assert (Hk : exists k, opt_type self = Spec.kind_name k)
         by (first [now exists Spec.Call | now exists Spec.Put]);
       destruct Hk as [k Hk];
       rewrite (_mkt_price_kind self k) in * by assumption;
       unfold main in He; rewrite (_mkt_price_kind self k) in He by assumption;
       destruct (loc_lastPrice (table_of k calls puts) (strike self)) as [| x s];
       cbn [iloc_0] in *;
       [cbn [fst snd] in He; inversion He; right; left; auto |];
       destruct (Z.eq_dec (steps self) 0) as [Hs | Hs];
       [ rewrite mc_call_prc_of, _mc_simulation_zero_steps in He by assumption;
         cbn [fst snd payoffs_of report_of] in He; inversion He; right; right; auto
       | pose proof (mc_call_prc_kind randn self k g Hs Hk) as Hmc;
         destruct (mc_call_prc randn self g) as [r g']; cbn [fst] in Hmc;
         subst r; unfold black_sholes_price in He;
         rewrite (black_sholes_value_kind self k Hk) in He;
         cbn [fst snd] in He; discriminate ].
Qed.

End ReportProperties.

(* ================================================================== *)
(** * Concrete instances of the further properties *)

(** Runs of [small_run] with [steps = 0], and without volatility. *)
Definition no_steps_run (k : string) : OptionPricing :=
  mkOptionPricing "GOOGL" "2024-03-15" k 100 0 2 1 0.05 100 0.2.

Definition zero_volatility_run (k : string) : OptionPricing :=
  mkOptionPricing "GOOGL" "2024-03-15" k 100 2 2 1 0.05 100 0.

(** The market of [at_the_money] with the strike at the forward price. *)
Definition forward_run (k : string) : OptionPricing :=
  mkOptionPricing "GOOGL" "2024-03-15" k (100 * exp (0.05 * 1)) 500 100000
    1 0.05 100 0.2.

(** A table with one row below the strike 100 and two rows at it. *)
Definition quotes : list option_chain.row :=
  [option_chain.mkRow 90 12; option_chain.mkRow 100 5; option_chain.mkRow 100 6].

(** A year of closes with a close of 0 in it. *)
Definition closes_with_zero : list R := [100] ++ 0 :: 110 :: [121].

Lemma quotes_market_price (k : string) :
  (k = "Call" \/ k = "Put") ->
  _mkt_price (small_run k) quotes quotes = Ok (PyFloat 5).
Proof.
  intros [-> | ->]; unfold _mkt_price, quotes; cbn [opt_type small_run String.eqb
    Ascii.eqb Bool.eqb loc_lastPrice option_chain.strike option_chain.lastPrice strike];
    simpl;
    destruct (Req_dec_T 90 100) as [E | _]; try lra;
    destruct (Req_dec_T 100 100) as [_ | N]; try reflexivity; now elim N.
Qed.

Lemma growing_closes_info :
  _stock_info growing_closes
  = Ok (121, pd.Fin (Spec.estimateVolatility growing_closes 252)).
Proof.
  unfold _stock_info, Spec.estimateVolatility, growing_closes.
  rewrite Estimator.std_pct_change_nonzero, Estimator.simple_returns_cons.
  - reflexivity.
  - simpl. lia.
  - lra.
  - repeat constructor; lra.
Qed.

Lemma straddle_main_fails :
  snd (fst (main zero_randn (at_the_money "Straddle") quotes quotes 0%nat))
  = Some ValueError.
Proof.
  unfold main.
  rewrite (_mkt_price_other _ _ _ straddle_not_call straddle_not_put).
  reflexivity.
Qed.

Lemma geometric_path_closed_form_witness :
  nth 2 (fst (geometric_path zero_randn 0.05 100 0.2 (1 / 2) 2 0%nat)) 0 =
  100 * exp (INR 2 * ((0.05 - 0.5 * 0.2 ^ 2) * (1 / 2))
             + 0.2 * sqrt (1 / 2) * draw_sum zero_randn 0%nat 2).
Proof.
  apply (geometric_path_closed_form zero_randn 0.05 100 0.2 (1 / 2) 2 0%nat 2). lia.
Defined.

Lemma geometric_path_zero_volatility_witness :
  nth 2 (fst (geometric_path_f64 zero_randn 0.05 100 0 (1 / 2) 2 0%nat)) (f64.Num 0)
  = f64.Num (100 * exp (0.05 * (INR 2 * (1 / 2)))).
Proof.
  apply (geometric_path_zero_volatility zero_randn 0.05 100 (1 / 2) 2 0%nat 2);
    [lra | lia].
Defined.

Lemma geometric_path_compose_witness :
  let first := geometric_path zero_randn 0.05 100 0.2 (1 / 2) 1 0%nat in
  let second :=
    geometric_path zero_randn 0.05 (last (fst first) 0) 0.2 (1 / 2) 2 (snd first) in
  geometric_path zero_randn 0.05 100 0.2 (1 / 2) (1 + 2) 0%nat
  = (fst first ++ tl (fst second), snd second).
Proof.
  apply (geometric_path_compose zero_randn 0.05 100 0.2 (1 / 2) 1 2 0%nat); lia.
Defined.

Lemma _mc_simulation_final_prices_not_negative_witness :
  exists final_prices : list R,
    fst (_mc_simulation zero_randn (small_run "Call") 0%nat) = Ok final_prices
    /\ length final_prices = Z.to_nat (sims (small_run "Call"))
    /\ Forall (fun s => 0 <= s) final_prices.
Proof.
  apply (_mc_simulation_final_prices_not_negative zero_randn (small_run "Call") 0%nat).
  - reflexivity.
  - simpl. lra.
  - simpl. lra.
Defined.

Lemma mc_call_prc_generator_witness :
  snd (mc_call_prc zero_randn (small_run "Straddle") 0%nat)
  = advance zero_randn
      (Z.to_nat (sims (small_run "Straddle")) * Z.to_nat (steps (small_run "Straddle")))
      0%nat.
Proof.
  apply (mc_call_prc_generator zero_randn (small_run "Straddle") 0%nat). discriminate.
Defined.

Lemma mc_call_prc_zero_steps_witness :
  mc_call_prc zero_randn (no_steps_run "Call") 0%nat = (Raise ZeroDivisionError, 0%nat).
Proof.
  apply (mc_call_prc_zero_steps zero_randn (no_steps_run "Call") 0%nat). reflexivity.
Defined.

Lemma mc_call_prc_nonnegative_witness :
  exists price : R,
    fst (mc_call_prc zero_randn (small_run "Put") 0%nat)
    = Ok (Line "Monte Carlo Simulation: " price)
    /\ 0 <= price.
Proof.
  apply (mc_call_prc_nonnegative zero_randn (small_run "Put") Spec.Put 0%nat);
    [discriminate | reflexivity | reflexivity].
Defined.

Lemma mc_call_prc_parity_witness :
  exists (c p : R) (final_prices : list R),
    fst (_mc_simulation zero_randn (small_run "Call") 0%nat) = Ok final_prices
    /\ fst (mc_call_prc zero_randn (set_opt_type (small_run "Call") "Call") 0%nat)
       = Ok (Line "Monte Carlo Simulation: " c)
    /\ fst (mc_call_prc zero_randn (set_opt_type (small_run "Call") "Put") 0%nat)
       = Ok (Line "Monte Carlo Simulation: " p)
    /\ c - p = (np.mean final_prices - strike (small_run "Call"))
               * exp (- rf (small_run "Call") * capt (small_run "Call")).
Proof.
  apply (mc_call_prc_parity zero_randn (small_run "Call") 0%nat);
    [discriminate | reflexivity].
Defined.

Lemma mc_call_prc_put_bound_witness :
  exists price : R,
    fst (mc_call_prc zero_randn (small_run "Put") 0%nat)
    = Ok (Line "Monte Carlo Simulation: " price)
    /\ price <= strike (small_run "Put")
                * exp (- rf (small_run "Put") * capt (small_run "Put")).
Proof.
  apply (mc_call_prc_put_bound zero_randn (small_run "Put") 0%nat);
    [reflexivity | reflexivity | simpl; lra | reflexivity | simpl; lra | simpl; lra].
Defined.

Lemma mc_call_prc_zero_volatility_witness :
  fst (mc_call_prc zero_randn (zero_volatility_run "Call") 0%nat) =
  Ok (Line "Monte Carlo Simulation: "
        (Spec.payoff Spec.Call (strike (zero_volatility_run "Call"))
           (spot (zero_volatility_run "Call")
            * exp (rf (zero_volatility_run "Call") * capt (zero_volatility_run "Call")))
         * exp (- rf (zero_volatility_run "Call") * capt (zero_volatility_run "Call")))).
Proof.
  apply (mc_call_prc_zero_volatility zero_randn (zero_volatility_run "Call")
           Spec.Call 0%nat);
    [reflexivity | reflexivity | reflexivity | simpl; lra | reflexivity].
Defined.

Lemma black_sholes_price_at_the_money_forward_witness :
  black_sholes_price (forward_run "Put") =
  Ok (Line "Black and Sholes Model: "
        (spot (forward_run "Put")
         * (2 * norm.cdf (sigma (forward_run "Put")
                          * sqrt (capt (forward_run "Put")) / 2) - 1)))
  /\ 0 < spot (forward_run "Put")
         * (2 * norm.cdf (sigma (forward_run "Put")
                          * sqrt (capt (forward_run "Put")) / 2) - 1).
Proof.
  apply (black_sholes_price_at_the_money_forward (forward_run "Put") Spec.Put);
    [simpl; lra | simpl; lra | simpl; lra | reflexivity | reflexivity].
Defined.

Lemma _stock_info_scale_witness :
  _stock_info (map (Rmult 2) growing_closes) =
  match _stock_info growing_closes with
  | Ok (spot, sigma) => Ok (2 * spot, sigma)
  | Raise e => Raise e
  end.
Proof.
  apply (_stock_info_scale 2 growing_closes). lra.
Defined.

Lemma _stock_info_volatility_nonnegative_witness :
  0 <= Spec.estimateVolatility growing_closes 252.
Proof.
  exact (_stock_info_volatility_nonnegative growing_closes 121
           (Spec.estimateVolatility growing_closes 252) growing_closes_info).
Defined.

Lemma _stock_info_zero_close_witness :
  _stock_info closes_with_zero = Ok (last closes_with_zero 0, pd.NaN).
Proof.
  apply (_stock_info_zero_close [100] [121] 110). lra.
Defined.

Lemma _mkt_price_first_quote_witness :
  _mkt_price (at_the_money "Call") quotes [] = Ok (PyFloat 5).
Proof.
  apply (_mkt_price_first_quote (at_the_money "Call") Spec.Call quotes []
           [option_chain.mkRow 90 12] [option_chain.mkRow 100 6]
           (option_chain.mkRow 100 5)).
  - reflexivity.
  - reflexivity.
  - repeat constructor. simpl. lra.
  - reflexivity.
Defined.

Lemma main_unrecognized_option_witness :
  main zero_randn (at_the_money "Straddle") quotes quotes 0%nat
  = ((heading (at_the_money "Straddle"), Some ValueError), 0%nat).
Proof.
  apply (main_unrecognized_option zero_randn (at_the_money "Straddle") quotes quotes
           0%nat); discriminate.
Defined.

Lemma main_report_witness :
  main zero_randn (small_run "Call") quotes quotes 0%nat =
  ((heading (small_run "Call") ++
    [NumberLine (Line "Market Price: " 5);
     NumberLine (Line "Monte Carlo Simulation: "
                   (discounted_mean_payoff (small_run "Call") Spec.Call
                      (final_prices_of zero_randn (small_run "Call") 0%nat)));
     NumberLine (Line "Black and Sholes Model: "
                   (Spec.analytic_price Spec.Call (spot (small_run "Call"))
                      (strike (small_run "Call")) (rf (small_run "Call"))
                      (sigma (small_run "Call")) (capt (small_run "Call"))))],
    None),
   advance zero_randn
     (Z.to_nat (sims (small_run "Call")) * Z.to_nat (steps (small_run "Call")))
     0%nat).
Proof.
  apply (main_report zero_randn (small_run "Call") Spec.Call quotes quotes 5 0%nat).
  - reflexivity.
  - apply quotes_market_price. now left.
  - discriminate.
Defined.

Lemma main_exceptions_witness :
  (ValueError = ValueError
   /\ opt_type (at_the_money "Straddle") <> "Call"
   /\ opt_type (at_the_money "Straddle") <> "Put")
  \/ (ValueError = Propagated IndexError
      /\ _mkt_price (at_the_money "Straddle") quotes quotes = Raise IndexError)
  \/ (ValueError = Propagated ZeroDivisionError
      /\ steps (at_the_money "Straddle") = 0%Z).
Proof.
  exact (main_exceptions zero_randn (at_the_money "Straddle") quotes quotes 0%nat
           ValueError straddle_main_fails).
Defined.
